(** * bamtools split: a shallow embedding of [bamtools_split.cpp]

    The split tool reads a BAM file once and demultiplexes its alignments
    into one output file per value of a user-chosen property (mapped,
    paired, reference, or a tag).  This development embeds the functions of
    [src/toolkit/bamtools_split.cpp] and proves properties of them.

    Conventions of the embedding:
    - [std::string] is [string]; [string::npos] is [None];
    - [int32_t] values are [Z], [uint32_t] values are [N];
    - [std::map<K, BamWriter*>] is [gmap K BamWriter] for the key types
      [bool], [int32_t], [uint32_t] and [std::string], whose [operator<] is
      a total order; for [float] keys, where it is not, the map is the
      list of its entries in ascending key order, searched with the
      comparison itself ([StdMap]).  Every writer is pointed to by exactly
      one map entry, so the entry holds the writer's state itself and
      [SaveAlignment] through the pointer is an update of the entry;
    - [BamReader] is the list of alignments still to be read;
    - an uncaught C++ exception ends the run with the outcome [Uncaught]. *)

From Stdlib Require Import ZArith Ascii String List Permutation.
From stdpp Require Import base gmap strings list fin_maps pretty.

Local Open Scope string_scope.

(** ** String primitives used by the tool *)

Module StdString.

(** [s.find(c, pos)] for a one-character needle. *)
Fixpoint find (c : ascii) (s : string) (pos : nat) : option nat :=
  match s with
  | EmptyString => None
  | String a s' =>
      match pos with
      | O => if Ascii.eqb a c then Some O else S <$> find c s' O
      | S p => S <$> find c s' p
      end
  end.

(** [s.rfind(c)] for a one-character needle: the last occurrence. *)
Fixpoint rfind (c : ascii) (s : string) : option nat :=
  match s with
  | EmptyString => None
  | String a s' =>
      match rfind c s' with
      | Some i => Some (S i)
      | None => if Ascii.eqb a c then Some O else None
      end
  end.

(** [s.replace(pos, 1, c)]: overwrite the character at [pos]. *)
Fixpoint replace (s : string) (pos : nat) (c : ascii) : string :=
  match s with
  | EmptyString => EmptyString
  | String a s' =>
      match pos with
      | O => String c s'
      | S p => String a (replace s' p c)
      end
  end.

(** The first [n] characters. *)
Fixpoint prefix (n : nat) (s : string) : string :=
  match n, s with
  | S m, String a s' => String a (prefix m s')
  | _, _ => EmptyString
  end.

(** [s.substr(0, count)]; a count of [npos] is clamped to the size. *)
Definition substr0 (s : string) (count : option nat) : string :=
  match count with
  | None => s
  | Some n => prefix n s
  end.

(** Character-wise substitution, used to describe the result of the
    replacement loop. *)
Fixpoint subst_char (old new : ascii) (s : string) : string :=
  match s with
  | EmptyString => EmptyString
  | String a s' =>
      String (if Ascii.eqb a old then new else a) (subst_char old new s')
  end.

(** Does the character occur in the string? *)
Fixpoint occurs (c : ascii) (s : string) : bool :=
  match s with
  | EmptyString => false
  | String a s' => Ascii.eqb a c || occurs c s'
  end.

End StdString.

(** ** File-local helpers of the tool *)

Definition SPLIT_MAPPED_TOKEN    : string := ".MAPPED".
Definition SPLIT_UNMAPPED_TOKEN  : string := ".UNMAPPED".
Definition SPLIT_PAIRED_TOKEN    : string := ".PAIRED_END".
Definition SPLIT_SINGLE_TOKEN    : string := ".SINGLE_END".
Definition SPLIT_REFERENCE_TOKEN : string := ".REF_".

(** The [while (found != npos)] loop of [GetTimestampString].  Every turn
    overwrites one blank, so the number of turns is bounded by the length of
    the string, which is the fuel handed in by [GetTimestampString]. *)
Fixpoint blank_loop (fuel : nat) (timeString : string) (found : option nat)
  : string :=
  match found with
  | None => timeString
  | Some i =>
      match fuel with
      | O => timeString
      | S fuel' =>
          let timeString' := StdString.replace timeString i "_"%char in
          blank_loop fuel' timeString' (StdString.find " "%char timeString' (i + 1))
      end
  end.

(** [GetTimestampString]: [currentTime] is the text produced by
    [ctime(&currentTime)], the only input of the function. *)
Definition GetTimestampString (currentTime : string) : string :=
  let timeString := currentTime in
  let found := StdString.find " "%char timeString 0 in
  blank_loop (String.length timeString) timeString found.

(** [RemoveFilenameExtension]. *)
Definition RemoveFilenameExtension (filename : string) : string :=
  let found := StdString.rfind "."%char filename in
  StdString.substr0 filename found.

(** ** Settings *)

Record SplitSettings := {
  HasInputFilename     : bool;
  HasCustomOutputStub  : bool;
  IsSplittingMapped    : bool;
  IsSplittingPaired    : bool;
  IsSplittingReference : bool;
  IsSplittingTag       : bool;
  CustomOutputStub     : string;
  InputFilename        : string;
  TagToSplit           : string
}.

(** [DetermineOutputFilenameStub]; the value assigned to
    [m_outputFilenameStub]. *)
Definition DetermineOutputFilenameStub (m_settings : SplitSettings)
  (currentTime : string) : string :=
  if HasCustomOutputStub m_settings then CustomOutputStub m_settings
  else if HasInputFilename m_settings
       then RemoveFilenameExtension (InputFilename m_settings)
       else GetTimestampString currentTime.

(** ** The BamTools API the tool is written against

    [BamAlignment], [BamReader], [BamWriter] and [RefVector] are declared in
    headers of the BamTools API.  The tool uses them only through the
    operations below, so the embedding is parametric in them. *)

Record RefData := { RefName : string; RefLength : Z }.

Abbreviation RefVector := (list RefData).

(** [size_t] is taken to be 64 bits wide; converting a negative [int32_t]
    to it wraps around. *)
Definition to_size_t (n : Z) : Z := n mod 2 ^ 64.

(** [v.at(n)]: the bounds-checked element access of [std::vector].  [None]
    stands for the [std::out_of_range] exception it throws. *)
Definition vector_at {T : Type} (v : list T) (n : Z) : option T :=
  let n := to_size_t n in
  if (n <? Z.of_nat (length v))%Z then nth_error v (Z.to_nat n) else None.

(** The operations of [BamAlignment] used by the tool.  [GetTag] is
    overloaded on the type of its destination; each overload returns [None]
    where the C++ function returns [false].  [Float] stands for the values
    of C++ [float], NaN and the two zeros among them, [float_lt] for
    [operator<] on them, by which [std::map<float, _>] places and finds
    its keys, and [print_float] for [operator<<] on them. *)
Class BamAlignmentAPI (BamAlignment Float : Type) := {
  IsMapped      : BamAlignment -> bool;
  IsPaired      : BamAlignment -> bool;
  RefID         : BamAlignment -> Z;
  GetTagType    : BamAlignment -> string -> option ascii;
  GetTag_int32  : BamAlignment -> string -> option Z;
  GetTag_uint32 : BamAlignment -> string -> option N;
  GetTag_float  : BamAlignment -> string -> option Float;
  GetTag_string : BamAlignment -> string -> option string;
  float_lt      : Float -> Float -> bool;
  print_float   : Float -> string
}.

(** ** [std::map] over a key type compared by [operator<]

    The map is the list of its entries in ascending key order.  Two keys
    are equivalent when neither is less than the other; that, not
    equality, is how the map tells keys apart.  For [float] the two zeros
    are equivalent, and NaN, which is less than nothing and than which
    nothing is less, is equivalent to every key. *)

Module StdMap.

Section Ordered.

Context {K V : Type}.
Variable lt : K -> K -> bool.

Definition equivalent (a b : K) : bool := negb (lt a b) && negb (lt b a).

(** [m.find(k)]: the lower bound of [k], the first entry whose key is not
    less than [k], is the entry found unless [k] is less than its key. *)
Fixpoint find (k : K) (m : list (K * V)) : option V :=
  match m with
  | [] => None
  | (k', v) :: m' =>
      if lt k' k then find k m'
      else if lt k k' then None else Some v
  end.

(** [m.insert(make_pair(k, v))]: the entry takes its place in key order;
    where an entry with an equivalent key is in that place already,
    nothing is inserted. *)
Fixpoint insert (k : K) (v : V) (m : list (K * V)) : list (K * V) :=
  match m with
  | [] => [(k, v)]
  | (k', v') :: m' =>
      if lt k' k then (k', v') :: insert k v m'
      else if lt k k' then (k, v) :: (k', v') :: m' else (k', v') :: m'
  end.

(** An update through the iterator [m.find(k)] returned: the value of the
    entry found is changed, its key and place stay. *)
Fixpoint alter (f : V -> V) (k : K) (m : list (K * V)) : list (K * V) :=
  match m with
  | [] => []
  | (k', v) :: m' =>
      if lt k' k then (k', v) :: alter f k m'
      else if lt k k' then (k', v) :: m' else (k', f v) :: m'
  end.

End Ordered.

End StdMap.

(** How a run ends: the function returns, or an exception nobody catches
    leaves it. *)
Inductive Outcome :=
  | Returned (ok : bool)
  | Uncaught (what : string).

(** The process-level result of [SplitTool::Run]. *)
Inductive ExitStatus :=
  | Exit (code : Z)
  | Terminated.

Definition endl : string := String "010"%char EmptyString.

Section Split.

Context {BamAlignment Float : Type}.
Context `{!BamAlignmentAPI BamAlignment Float}.

(** Whether [BamWriter::Open] manages to create the named file. *)
Variable can_open : string -> bool.

(** *** BamWriter *)

Record BamWriter := {
  Filename   : string;
  Header     : string;
  References : RefVector;
  IsOpen     : bool;
  Alignments : list BamAlignment;
  IsClosed   : bool
}.

(** [new BamWriter] *)
Definition new_BamWriter : BamWriter :=
  {| Filename := EmptyString; Header := EmptyString; References := []; IsOpen := false;
     Alignments := []; IsClosed := false |}.

(** [writer->Open(filename, header, references)]; it returns nothing the
    caller looks at. *)
Definition Open (filename header : string) (references : RefVector)
  (w : BamWriter) : BamWriter :=
  {| Filename := filename; Header := header; References := references;
     IsOpen := can_open filename;
     Alignments := Alignments w; IsClosed := IsClosed w |}.

(** [writer->SaveAlignment(al)]: the alignment is handed to the writer,
    after those handed to it before. *)
Definition SaveAlignment (al : BamAlignment) (w : BamWriter) : BamWriter :=
  {| Filename := Filename w; Header := Header w; References := References w;
     IsOpen := IsOpen w;
     Alignments := Alignments w ++ [al]; IsClosed := IsClosed w |}.

(** [writer->Close()] *)
Definition Close (w : BamWriter) : BamWriter :=
  {| Filename := Filename w; Header := Header w; References := References w;
     IsOpen := IsOpen w;
     Alignments := Alignments w; IsClosed := true |}.

(** *** The state a split function leaves behind *)

Record Result (Files : Type) := mkResult {
  outcome     : Outcome;
  unread      : list BamAlignment;   (* what [m_reader] still holds *)
  outputFiles : Files;
  cerr        : list string          (* what went to the error channel *)
}.
Global Arguments mkResult {Files}.
Global Arguments outcome {Files}.
Global Arguments unread {Files}.
Global Arguments outputFiles {Files}.
Global Arguments cerr {Files}.

(** *** Members of [SplitToolPrivate] read by the split functions *)

Variable m_outputFilenameStub : string.
Variable m_header : string.
Variable m_references : RefVector.

(** *** The loop shared by the split functions

    All seven split functions run the same [while] loop over the reader,
    followed by the same clean-up loop; they differ in the key they read
    off the alignment and in the file name they build for a new key.
    [SplitLoop] is that loop for the six functions whose key type has a
    total order; [SplitLoopOrdered] below is the same loop for the float
    keys of [SplitTag_Real].
    [key al = None] is the [continue] of the tag functions;
    [outputFilename k = None] is an exception thrown while the name is
    built, after [new BamWriter] and before [Open] and [insert].  [new]
    never yields a null pointer, so the tests [if (writer)] and
    [if (writer == 0)] always go the same way and are not modelled. *)
Section Loop.

Context {K : Type} `{Countable K}.
Variable key : BamAlignment -> option K.
Variable outputFilename : K -> option string.

(** "clean up BamWriters": every writer in the map is closed. *)
Definition CloseAll (outputFiles : gmap K BamWriter) : gmap K BamWriter :=
  Close <$> outputFiles.

Fixpoint SplitLoop (m_reader : list BamAlignment)
  (outputFiles : gmap K BamWriter) : Result (gmap K BamWriter) :=
  match m_reader with
  | [] => mkResult (Returned true) [] (CloseAll outputFiles) []
  | al :: m_reader' =>
      match key al with
      | None => SplitLoop m_reader' outputFiles
      | Some currentValue =>
          match outputFiles !! currentValue with
          | None =>
              match outputFilename currentValue with
              | None =>
                  mkResult (Uncaught "std::out_of_range") m_reader'
                    outputFiles []
              | Some name =>
                  let writer := Open name m_header m_references new_BamWriter in
                  SplitLoop m_reader'
                    (<[currentValue := SaveAlignment al writer]> outputFiles)
              end
          | Some writer =>
              SplitLoop m_reader'
                (<[currentValue := SaveAlignment al writer]> outputFiles)
          end
      end
  end.

(** The start of the tag functions: "retrieve first alignment tag
    value", open its writer and save the alignment. *)
Definition FirstAlignment (name : K -> string) (al : BamAlignment)
  : gmap K BamWriter :=
  match key al with
  | Some currentValue =>
      let writer := Open (name currentValue) m_header m_references new_BamWriter in
      <[currentValue := SaveAlignment al writer]> ∅
  | None => ∅
  end.

End Loop.

(** The same loop over a map whose keys are compared by [lt]
    ([SplitTag_Real]): [find], then either [insert] of a new writer or an
    update of the writer found, and the same clean-up. *)
Section OrderedLoop.

Context {K : Type}.
Variable lt : K -> K -> bool.
Variable key : BamAlignment -> option K.
Variable name : K -> string.

Definition CloseEach (outputFiles : list (K * BamWriter)) : list (K * BamWriter) :=
  prod_map id Close <$> outputFiles.

Fixpoint SplitLoopOrdered (m_reader : list BamAlignment)
  (outputFiles : list (K * BamWriter)) : Result (list (K * BamWriter)) :=
  match m_reader with
  | [] => mkResult (Returned true) [] (CloseEach outputFiles) []
  | al :: m_reader' =>
      match key al with
      | None => SplitLoopOrdered m_reader' outputFiles
      | Some currentValue =>
          match StdMap.find lt currentValue outputFiles with
          | None =>
              let writer :=
                Open (name currentValue) m_header m_references new_BamWriter in
              SplitLoopOrdered m_reader'
                (StdMap.insert lt currentValue (SaveAlignment al writer)
                   outputFiles)
          | Some _ =>
              SplitLoopOrdered m_reader'
                (StdMap.alter lt (SaveAlignment al) currentValue outputFiles)
          end
      end
  end.

Definition FirstAlignmentOrdered (al : BamAlignment) : list (K * BamWriter) :=
  match key al with
  | Some currentValue =>
      let writer := Open (name currentValue) m_header m_references new_BamWriter in
      StdMap.insert lt currentValue (SaveAlignment al writer) []
  | None => []
  end.

End OrderedLoop.

(** *** The split functions *)

Definition SplitMapped (m_reader : list BamAlignment)
  : Result (gmap bool BamWriter) :=
  SplitLoop
    (fun al => Some (IsMapped al))
    (fun isCurrentAlignmentMapped =>
       Some (m_outputFilenameStub
             +:+ (if isCurrentAlignmentMapped : bool
                  then SPLIT_MAPPED_TOKEN else SPLIT_UNMAPPED_TOKEN)
             +:+ ".bam"))
    m_reader ∅.

Definition SplitPaired (m_reader : list BamAlignment)
  : Result (gmap bool BamWriter) :=
  SplitLoop
    (fun al => Some (IsPaired al))
    (fun isCurrentAlignmentPaired =>
       Some (m_outputFilenameStub
             +:+ (if isCurrentAlignmentPaired : bool
                  then SPLIT_PAIRED_TOKEN else SPLIT_SINGLE_TOKEN)
             +:+ ".bam"))
    m_reader ∅.

(** The file name of reference mode; [m_references.at(currentRefId)]
    throws when the id is no index of the table. *)
Definition ReferenceFilename (currentRefId : Z) : option string :=
  match vector_at m_references currentRefId with
  | Some ref =>
      Some (m_outputFilenameStub +:+ SPLIT_REFERENCE_TOKEN
            +:+ RefName ref +:+ ".bam")
  | None => None
  end.

Definition SplitReference (m_reader : list BamAlignment)
  : Result (gmap Z BamWriter) :=
  SplitLoop (fun al => Some (RefID al)) ReferenceFilename m_reader ∅.

(** The file name of tag mode, [text] being the value as [operator<<]
    prints it. *)
Definition TagFilename (tag text : string) : string :=
  m_outputFilenameStub +:+ ".TAG_" +:+ tag +:+ "_" +:+ text +:+ ".bam".

Definition SplitTag_Int (tag : string) (al : BamAlignment)
  (m_reader : list BamAlignment) : Result (gmap Z BamWriter) :=
  let name := fun currentValue : Z => TagFilename tag (pretty currentValue) in
  let get := fun al => GetTag_int32 al tag in
  SplitLoop get (fun v => Some (name v)) m_reader (FirstAlignment get name al).

(** The counter [alignmentsIgnored] of the source is written but never
    read; it is left out. *)
Definition SplitTag_UInt (tag : string) (al : BamAlignment)
  (m_reader : list BamAlignment) : Result (gmap N BamWriter) :=
  let name := fun currentValue : N => TagFilename tag (pretty currentValue) in
  let get := fun al => GetTag_uint32 al tag in
  SplitLoop get (fun v => Some (name v)) m_reader (FirstAlignment get name al).

Definition SplitTag_Real (tag : string) (al : BamAlignment)
  (m_reader : list BamAlignment) : Result (list (Float * BamWriter)) :=
  let name := fun currentValue : Float => TagFilename tag (print_float currentValue) in
  let get := fun al => GetTag_float al tag in
  SplitLoopOrdered float_lt get name m_reader
    (FirstAlignmentOrdered float_lt get name al).

Definition SplitTag_String (tag : string) (al : BamAlignment)
  (m_reader : list BamAlignment) : Result (gmap string BamWriter) :=
  let name := fun currentValue : string => TagFilename tag currentValue in
  let get := fun al => GetTag_string al tag in
  SplitLoop get (fun v => Some (name v)) m_reader (FirstAlignment get name al).

(** The maps of the split functions, one constructor per key type. *)
Inductive OutputFiles :=
  | NoFiles
  | BoolFiles   (m : gmap bool BamWriter)
  | Int32Files  (m : gmap Z BamWriter)
  | UInt32Files (m : gmap N BamWriter)
  | FloatFiles  (m : list (Float * BamWriter))
  | StringFiles (m : gmap string BamWriter).

(** Every writer the run created. *)
Definition writers (f : OutputFiles) : list BamWriter :=
  match f with
  | NoFiles => []
  | BoolFiles m => (map_to_list m).*2
  | Int32Files m => (map_to_list m).*2
  | UInt32Files m => (map_to_list m).*2
  | FloatFiles m => m.*2
  | StringFiles m => (map_to_list m).*2
  end.

Definition with_files {F G : Type} (f : F -> G) (r : Result F) : Result G :=
  mkResult (outcome r) (unread r) (f (outputFiles r)) (cerr r).

(** The ten storage classes [SplitTag] dispatches on. *)
Inductive TagFamily := SignedInt | UnsignedInt | Real | Text.

Definition family_of (tagType : ascii) : option TagFamily :=
  if (Ascii.eqb tagType "c" || Ascii.eqb tagType "s" || Ascii.eqb tagType "i")%char
  then Some SignedInt
  else if (Ascii.eqb tagType "C" || Ascii.eqb tagType "S" || Ascii.eqb tagType "I")%char
  then Some UnsignedInt
  else if Ascii.eqb tagType "f"%char
  then Some Real
  else if (Ascii.eqb tagType "A" || Ascii.eqb tagType "Z" || Ascii.eqb tagType "H")%char
  then Some Text
  else None.

Fixpoint SplitTag (tag : string) (m_reader : list BamAlignment)
  : Result OutputFiles :=
  match m_reader with
  | [] => mkResult (Returned true) [] NoFiles []
  | al :: m_reader' =>
      match GetTagType al tag with
      | None => SplitTag tag m_reader'
      | Some tagType =>
          match family_of tagType with
          | Some SignedInt =>
              with_files Int32Files (SplitTag_Int tag al m_reader')
          | Some UnsignedInt =>
              with_files UInt32Files (SplitTag_UInt tag al m_reader')
          | Some Real =>
              with_files FloatFiles (SplitTag_Real tag al m_reader')
          | Some Text =>
              with_files StringFiles (SplitTag_String tag al m_reader')
          | None =>
              mkResult (Returned false) m_reader' NoFiles
                ["ERROR: Unknown tag storage class encountered: ["
                 +:+ String tagType "]" +:+ endl]
          end
      end
  end.

End Split.


(** ** The driver *)

(** What [BamReader::Open] finds in a BAM file. *)
Record BamFile (BamAlignment : Type) := {
  HeaderText    : string;
  ReferenceData : RefVector;
  AlignmentData : list BamAlignment
}.
Arguments HeaderText {BamAlignment}.
Arguments ReferenceData {BamAlignment}.
Arguments AlignmentData {BamAlignment}.

Section Driver.

Context {BamAlignment Float : Type}.
Context `{!BamAlignmentAPI BamAlignment Float}.

(** The environment of a run: which output files can be created, which
    input files [m_reader.Open] can read, and the text [ctime] returns. *)
Variable can_open : string -> bool.
Variable bam_files : string -> option (BamFile BamAlignment).
Variable currentTime : string.

(** [SplitToolPrivate::Run], with [OpenReader] in line. *)
Definition Run (m_settings : SplitSettings)
  : Result (OutputFiles (BamAlignment := BamAlignment) (Float := Float)) :=
  let m_outputFilenameStub := DetermineOutputFilenameStub m_settings currentTime in
  match bam_files (InputFilename m_settings) with
  | None =>
      mkResult (Returned false) [] NoFiles
        ["ERROR: SplitTool could not open BAM file: "
         +:+ InputFilename m_settings +:+ endl]
  | Some file =>
      let m_header := HeaderText file in
      let m_references := ReferenceData file in
      let m_reader := AlignmentData file in
      if IsSplittingMapped m_settings then
        with_files BoolFiles
          (SplitMapped can_open m_outputFilenameStub m_header m_references m_reader)
      else if IsSplittingPaired m_settings then
        with_files BoolFiles
          (SplitPaired can_open m_outputFilenameStub m_header m_references m_reader)
      else if IsSplittingReference m_settings then
        with_files Int32Files
          (SplitReference can_open m_outputFilenameStub m_header m_references m_reader)
      else if IsSplittingTag m_settings then
        SplitTag can_open m_outputFilenameStub m_header m_references
          (TagToSplit m_settings) m_reader
      else
        mkResult (Returned false) m_reader NoFiles
          ["No property given to split on... Please use -mapped, -paired, -reference, or -tag TAG to specifiy split behavior."
           +:+ endl]
  end.

(** [SplitTool::Run], after the command line has been parsed into the
    settings. *)
Definition SplitTool_Run (m_settings : SplitSettings) : ExitStatus :=
  match outcome (Run m_settings) with
  | Returned true => Exit 0
  | Returned false => Exit 1
  | Uncaught _ => Terminated
  end.

End Driver.

(** ** A concrete alignment type for examples *)

Module Sample.

(** Modelled from the spec: the alignment record of the BamTools API, whose
    header is not among the sources.  A record "exposes queryable boolean
    properties (mapped, paired), an integer reference identifier, and an
    optional named tag"; a tag carries its storage class and a value.  A
    [GetTag] overload fails when the tag is absent or holds a value of the
    other kind. *)
Inductive TagData :=
  | Number (tagType : ascii) (value : Z)
  | Characters (tagType : ascii) (value : string).

Definition tagType_of (d : TagData) : ascii :=
  match d with
  | Number t _ => t
  | Characters t _ => t
  end.

Record Alignment := {
  Name   : string;
  mapped : bool;
  paired : bool;
  refID  : Z;
  tags   : list (string * TagData)
}.

Fixpoint FindTag (tag : string) (l : list (string * TagData)) : option TagData :=
  match l with
  | [] => None
  | (t, d) :: l' => if String.eqb t tag then Some d else FindTag tag l'
  end.

Definition number_of (al : Alignment) (tag : string) : option Z :=
  match FindTag tag (tags al) with
  | Some (Number _ v) => Some v
  | _ => None
  end.

Definition characters_of (al : Alignment) (tag : string) : option string :=
  match FindTag tag (tags al) with
  | Some (Characters _ s) => Some s
  | _ => None
  end.

#[export] Instance Alignment_API : BamAlignmentAPI Alignment Z := {|
  IsMapped := mapped;
  IsPaired := paired;
  RefID := refID;
  GetTagType := fun al tag => tagType_of <$> FindTag tag (tags al);
  GetTag_int32 := number_of;
  GetTag_uint32 := fun al tag => Z.to_N <$> number_of al tag;
  GetTag_float := number_of;
  GetTag_string := characters_of;
  float_lt := Z.ltb;
  print_float := pretty
|}.

Definition plain (name : string) (m p : bool) (ref : Z) : Alignment :=
  {| Name := name; mapped := m; paired := p; refID := ref; tags := [] |}.

Definition tagged (name tag : string) (d : TagData) : Alignment :=
  {| Name := name; mapped := true; paired := false; refID := 0;
     tags := [(tag, d)] |}.

Definition chr1 : RefData := {| RefName := "chr1"; RefLength := 1000 |}.

(** Records: two mapped to the first reference, one unmapped (reference
    id -1), and three carrying the tag RG under different storage classes
    ('Z' text, 'i' signed integer, 'B' array). *)
Definition mapped_a   : Alignment := plain "a" true false 0.
Definition unmapped_b : Alignment := plain "b" false false (-1).
Definition mapped_c   : Alignment := plain "c" true true 0.
Definition rg_text    : Alignment := tagged "t" "RG" (Characters "Z" "lib1").
Definition rg_int     : Alignment := tagged "n" "RG" (Number "i" 5).
Definition rg_array   : Alignment := tagged "x" "RG" (Number "B" 1).

(** Environments: every output file can be created, or none can; one
    input file, [in.bam], over the reference table [[chr1]]. *)
Definition always : string -> bool := fun _ => true.
Definition never  : string -> bool := fun _ => false.

Definition in_bam (rs : list Alignment) : BamFile Alignment :=
  {| HeaderText := "@HD"; ReferenceData := [chr1]; AlignmentData := rs |}.

Definition only_in_bam (rs : list Alignment) (filename : string)
  : option (BamFile Alignment) :=
  if String.eqb filename "in.bam" then Some (in_bam rs) else None.

Definition ctime_text : string := "Fri Oct 30 14:06:00 2026" +:+ endl.

(** Settings as the command line [-in in.bam] with one mode option leaves
    them. *)
Definition mapped_settings : SplitSettings :=
  {| HasInputFilename := true; HasCustomOutputStub := false;
     IsSplittingMapped := true; IsSplittingPaired := false;
     IsSplittingReference := false; IsSplittingTag := false;
     CustomOutputStub := EmptyString; InputFilename := "in.bam"; TagToSplit := EmptyString |}.

Definition reference_settings : SplitSettings :=
  {| HasInputFilename := true; HasCustomOutputStub := false;
     IsSplittingMapped := false; IsSplittingPaired := false;
     IsSplittingReference := true; IsSplittingTag := false;
     CustomOutputStub := EmptyString; InputFilename := "in.bam"; TagToSplit := EmptyString |}.

Definition tag_settings : SplitSettings :=
  {| HasInputFilename := true; HasCustomOutputStub := false;
     IsSplittingMapped := false; IsSplittingPaired := false;
     IsSplittingReference := false; IsSplittingTag := true;
     CustomOutputStub := EmptyString; InputFilename := "in.bam"; TagToSplit := "RG" |}.


(** Two records carrying the tag XF as a float (storage class 'f'). *)
Definition xf_one : Alignment := tagged "p" "XF" (Number "f" 1).
Definition xf_two : Alignment := tagged "q" "XF" (Number "f" 2).

(** Further sample data: a second reference, an environment without any
    readable file, settings without a mode option, and settings with two
    mode options at once. *)
Definition chr2 : RefData := {| RefName := "chr2"; RefLength := 2000 |}.

Definition no_files (filename : string) : option (BamFile Alignment) := None.

Definition no_mode_settings : SplitSettings :=
  {| HasInputFilename := true; HasCustomOutputStub := false;
     IsSplittingMapped := false; IsSplittingPaired := false;
     IsSplittingReference := false; IsSplittingTag := false;
     CustomOutputStub := EmptyString; InputFilename := "in.bam";
     TagToSplit := EmptyString |}.

Definition mapped_and_tag_settings : SplitSettings :=
  {| HasInputFilename := true; HasCustomOutputStub := false;
     IsSplittingMapped := true; IsSplittingPaired := false;
     IsSplittingReference := false; IsSplittingTag := true;
     CustomOutputStub := EmptyString; InputFilename := "in.bam";
     TagToSplit := "RG" |}.

End Sample.

(** ** Float values with NaN and a negative zero, for examples *)

Module FloatSample.

(** Modelled from the spec: the [float] values a tag of storage class 'f'
    can hold, as far as the map of [SplitTag_Real] can tell them apart:
    the whole numbers, the negative zero and NaN.  [lt] is [operator<]:
    the negative zero compares as zero, and every comparison with NaN is
    false.  [print] is [operator<<]. *)
Inductive float_value :=
  | Finite (z : Z)
  | NegZero
  | NaN.

Definition number (x : float_value) : option Z :=
  match x with
  | Finite z => Some z
  | NegZero => Some 0%Z
  | NaN => None
  end.

Definition lt (x y : float_value) : bool :=
  match number x, number y with
  | Some a, Some b => (a <? b)%Z
  | _, _ => false
  end.

Definition print (x : float_value) : string :=
  match x with
  | Finite z => pretty z
  | NegZero => "-0"
  | NaN => "nan"
  end.

(** A record that carries the tag as a float, or not at all. *)
Record Read := {
  label : string;
  XF    : option float_value
}.

#[global] Instance Read_API : BamAlignmentAPI Read float_value := {|
  IsMapped := fun _ => true;
  IsPaired := fun _ => false;
  RefID := fun _ => 0%Z;
  GetTagType := fun r _ => match XF r with Some _ => Some "f"%char | None => None end;
  GetTag_int32 := fun _ _ => None;
  GetTag_uint32 := fun _ _ => None;
  GetTag_float := fun r _ => XF r;
  GetTag_string := fun _ _ => None;
  float_lt := lt;
  print_float := print
|}.

Definition read (l : string) (x : float_value) : Read :=
  {| label := l; XF := Some x |}.

(** The sinks of a float split: the printed key, the file name and the
    labels of the records of each, in map order. *)
Definition summary (m : list (float_value * BamWriter (BamAlignment := Read)))
  : list (string * string * list string) :=
  (fun e => (print e.1, Filename e.2, label <$> Alignments e.2)) <$> m.

End FloatSample.

(** The white-space characters of C's [isspace]. *)
Definition is_whitespace (c : ascii) : bool :=
  let n := nat_of_ascii c in
  (n =? 32)%nat || ((9 <=? n)%nat && (n <=? 13)%nat).

Fixpoint has_whitespace (s : string) : bool :=
  match s with
  | EmptyString => false
  | String a s' => is_whitespace a || has_whitespace s'
  end.

(** ** Vocabulary of the statements *)

Section Vocabulary.

Context {BamAlignment Float : Type}.
Context `{!BamAlignmentAPI BamAlignment Float}.
Context {K : Type} `{Countable K}.

(** Several [SaveAlignment] calls in a row. *)
Definition SaveAlignments (als : list BamAlignment)
  (w : BamWriter (BamAlignment := BamAlignment)) : BamWriter :=
  {| Filename := Filename w; Header := Header w; References := References w;
     IsOpen := IsOpen w;
     Alignments := Alignments w ++ als; IsClosed := IsClosed w |}.

Variable key : BamAlignment -> option K.

(** The records of the input whose key is [k], in input order. *)
Definition routed (m_reader : list BamAlignment) (k : K) : list BamAlignment :=
  filter (fun al => key al = Some k) m_reader.

(** Exactly-once, order-preserving routing: a key has a sink exactly when
    some record has that key, and the sink received precisely the records
    with that key, each once, in input order. *)
Definition routes_exactly (m_reader : list BamAlignment)
  (outputFiles : gmap K BamWriter) : Prop :=
  forall k,
    Alignments <$> outputFiles !! k =
    match routed m_reader k with
    | [] => None
    | al :: als => Some (al :: als)
    end.

(** What a sink received; nothing when the key has no sink. *)
Definition sink (outputFiles : gmap K BamWriter) (k : K) : list BamAlignment :=
  default [] (Alignments <$> outputFiles !! k).

Variable can_open : string -> bool.
Variable m_header : string.
Variable m_references : RefVector.
Variable outputFilename : K -> option string.

(** The map as the loop of a split function holds it after reading
    [m_reader], before the clean-up, when no file name failed to build. *)
Fixpoint pool_after (m_reader : list BamAlignment)
  (outputFiles : gmap K BamWriter) : gmap K BamWriter :=
  match m_reader with
  | [] => outputFiles
  | al :: m_reader' =>
      match key al with
      | None => pool_after m_reader' outputFiles
      | Some v =>
          let writer :=
            match outputFiles !! v with
            | Some writer => writer
            | None =>
                Open can_open (default EmptyString (outputFilename v))
                  m_header m_references new_BamWriter
            end in
          pool_after m_reader' (<[v := SaveAlignment al writer]> outputFiles)
      end
  end.

(** Every key met in [m_reader] has a file name. *)
Definition names_defined (m_reader : list BamAlignment) : Prop :=
  forall al v, al ∈ m_reader -> key al = Some v -> is_Some (outputFilename v).

End Vocabulary.

Section OrderedVocabulary.

Context {BamAlignment : Type} {K : Type}.
Variable lt : K -> K -> bool.
Variable key : BamAlignment -> option K.

(** [lt] is a strict weak order on the listed keys: irreflexive,
    transitive, and with a transitive equivalence.  [operator<] on [float]
    is one on every set of values without NaN. *)
Definition strict_weak_on (keys : list K) : Prop :=
  (forall a, a ∈ keys -> lt a a = false) /\
  (forall a b c, a ∈ keys -> b ∈ keys -> c ∈ keys ->
     lt a b = true -> lt b c = true -> lt a c = true) /\
  (forall a b c, a ∈ keys -> b ∈ keys -> c ∈ keys ->
     StdMap.equivalent lt a b = true -> StdMap.equivalent lt b c = true ->
     StdMap.equivalent lt a c = true).

(** The record has a key, and it is equivalent to [k]. *)
Definition in_class (k : K) (al : BamAlignment) : bool :=
  match key al with
  | Some v => StdMap.equivalent lt v k
  | None => false
  end.

(** The records of the input whose key is equivalent to [k], in input
    order. *)
Definition class_routed (m_reader : list BamAlignment) (k : K)
  : list BamAlignment :=
  filter (fun al => in_class k al = true) m_reader.

(** Exactly-once, order-preserving routing by equivalence class: every
    record with a key has a sink whose key is equivalent to its own; the
    key of a sink is the key of some record, and the sink received
    precisely the records with an equivalent key, each once, in input
    order; and no two sinks have equivalent keys. *)
Definition routes_by_class (m_reader : list BamAlignment)
  (outputFiles : list (K * BamWriter (BamAlignment := BamAlignment))) : Prop :=
  (forall al v, al ∈ m_reader -> key al = Some v ->
     exists k w, (k, w) ∈ outputFiles /\ StdMap.equivalent lt v k = true) /\
  (forall k w, (k, w) ∈ outputFiles ->
     k ∈ omap key m_reader /\ Alignments w = class_routed m_reader k) /\
  (forall i j k1 w1 k2 w2,
     outputFiles !! i = Some (k1, w1) -> outputFiles !! j = Some (k2, w2) ->
     StdMap.equivalent lt k1 k2 = true -> i = j).

(** The entries are in strictly ascending key order. *)
Fixpoint ascending {V : Type} (m : list (K * V)) : Prop :=
  match m with
  | [] => True
  | (k, _) :: m' => Forall (fun e => lt k e.1 = true) m' /\ ascending m'
  end.

Variable can_open : string -> bool.
Variable m_header : string.
Variable m_references : RefVector.
Variable name : K -> string.

(** The ordered map as the loop holds it after reading [m_reader], before
    the clean-up. *)
Fixpoint pool_ordered (m_reader : list BamAlignment)
  (outputFiles : list (K * BamWriter)) : list (K * BamWriter) :=
  match m_reader with
  | [] => outputFiles
  | al :: m_reader' =>
      match key al with
      | None => pool_ordered m_reader' outputFiles
      | Some v =>
          match StdMap.find lt v outputFiles with
          | None =>
              pool_ordered m_reader'
                (StdMap.insert lt v
                   (SaveAlignment al
                      (Open can_open (name v) m_header m_references new_BamWriter))
                   outputFiles)
          | Some _ =>
              pool_ordered m_reader'
                (StdMap.alter lt (SaveAlignment al) v outputFiles)
          end
      end
  end.

End OrderedVocabulary.

Section TagVocabulary.

Context {BamAlignment Float : Type}.
Context `{!BamAlignmentAPI BamAlignment Float}.

(** Tag mode routes by the extractor of the family it locked in: by the
    value for the integer and text families, by the equivalence class of
    the value under [operator<] for the float family. *)
Definition tag_routes (tag : string) (family : TagFamily)
  (m_reader : list BamAlignment)
  (files : OutputFiles (BamAlignment := BamAlignment) (Float := Float)) : Prop :=
  match family, files with
  | SignedInt, Int32Files m =>
      routes_exactly (fun al => GetTag_int32 al tag) m_reader m
  | UnsignedInt, UInt32Files m =>
      routes_exactly (fun al => GetTag_uint32 al tag) m_reader m
  | Real, FloatFiles m =>
      routes_by_class float_lt (fun al => GetTag_float al tag) m_reader m
  | Text, StringFiles m =>
      routes_exactly (fun al => GetTag_string al tag) m_reader m
  | _, _ => False
  end.

(** [operator<] orders the float values of the tag met in the input as a
    strict weak order; so it does when no value is NaN. *)
Definition float_keys_ordered (tag : string) (m_reader : list BamAlignment)
  : Prop :=
  strict_weak_on float_lt (omap (fun al => GetTag_float al tag) m_reader).

(** The record does not carry the tag. *)
Definition lacks_tag (tag : string) (al : BamAlignment) : Prop :=
  GetTagType al tag = None.

(** The settings select tag mode: no earlier mode flag is set. *)
Definition selects_tag_mode (m_settings : SplitSettings) : Prop :=
  IsSplittingMapped m_settings = false /\
  IsSplittingPaired m_settings = false /\
  IsSplittingReference m_settings = false /\
  IsSplittingTag m_settings = true.

End TagVocabulary.

(** An [int32_t] value. *)
Definition is_int32 (n : Z) : Prop := (- 2 ^ 31 <= n < 2 ^ 31)%Z.

(** * Properties *)

(** ** The file name stub *)

Section StubFacts.

Import StdString.

Lemma blank_loop_cons fuel a s found :
  blank_loop fuel (String a s) (S <$> found) = String a (blank_loop fuel s found).
Proof.
  revert s found.
  induction fuel as [|fuel IH]; intros s [i|]; simpl; try reflexivity.
  rewrite <- IH. reflexivity.
Qed.

Lemma blank_loop_subst s :
  forall fuel, String.length s <= fuel ->
    blank_loop fuel s (find " "%char s 0) = subst_char " "%char "_"%char s.
Proof.
  induction s as [|a s IH]; intros fuel Hfuel.
  - destruct fuel; reflexivity.
  - simpl in Hfuel. destruct fuel as [|fuel]; [lia|].
    cbn [find subst_char].
    destruct (Ascii.eqb a " "%char) eqn:Ha.
    + cbn [blank_loop replace Nat.add find].
      rewrite blank_loop_cons, IH by lia. reflexivity.
    + rewrite blank_loop_cons, IH by lia. reflexivity.
Qed.

(** The loop of [GetTimestampString] runs to its end within its fuel and
    turns exactly the blanks into underscores. *)
Lemma GetTimestampString_subst currentTime :
  GetTimestampString currentTime = subst_char " "%char "_"%char currentTime.
Proof. unfold GetTimestampString. apply blank_loop_subst. lia. Qed.

Lemma subst_char_app old new s t :
  subst_char old new (s +:+ t) = subst_char old new s +:+ subst_char old new t.
Proof. induction s as [|a s IH]; simpl; [reflexivity|]. rewrite IH. reflexivity. Qed.

Lemma occurs_subst_char s :
  occurs " "%char (subst_char " "%char "_"%char s) = false.
Proof.
  induction s as [|a s IH]; simpl; [reflexivity|].
  rewrite IH. destruct (Ascii.eqb a " "%char) eqn:Ha; [reflexivity|].
  rewrite Ha. reflexivity.
Qed.

Lemma has_whitespace_app_endl s : has_whitespace (s +:+ endl) = true.
Proof.
  induction s as [|a s IH]; simpl; [reflexivity|].
  rewrite IH. apply orb_true_r.
Qed.

Lemma rfind_None c s : occurs c s = false -> rfind c s = None.
Proof.
  induction s as [|a s IH]; simpl; [reflexivity|].
  intros [Ha Hs]%orb_false_elim. rewrite IH, Ha by assumption. reflexivity.
Qed.

Lemma rfind_last c base ext :
  occurs c ext = false ->
  rfind c (base +:+ String c ext) = Some (String.length base).
Proof.
  intros Hext. induction base as [|a base IH]; simpl.
  - rewrite rfind_None by assumption. rewrite Ascii.eqb_refl. reflexivity.
  - rewrite IH. reflexivity.
Qed.

Lemma prefix_app base rest : prefix (String.length base) (base +:+ rest) = base.
Proof.
  induction base as [|a base IH]; simpl.
  - destruct rest; reflexivity.
  - rewrite IH. reflexivity.
Qed.

Lemma RemoveFilenameExtension_no_dot filename :
  occurs "."%char filename = false ->
  RemoveFilenameExtension filename = filename.
Proof.
  intros Hdot. unfold RemoveFilenameExtension.
  rewrite rfind_None by assumption. reflexivity.
Qed.

Lemma RemoveFilenameExtension_last_dot base ext :
  occurs "."%char ext = false ->
  RemoveFilenameExtension (base +:+ String "."%char ext) = base.
Proof.
  intros Hdot. unfold RemoveFilenameExtension.
  rewrite rfind_last by assumption. apply prefix_app.
Qed.

End StubFacts.

(** ** The loop shared by the split functions *)

Section LoopFacts.

Context {BamAlignment Float : Type}.
Context `{!BamAlignmentAPI BamAlignment Float}.
Context {K : Type} `{Countable K}.

Implicit Types (al : BamAlignment) (rs : list BamAlignment).
Implicit Types (w : BamWriter (BamAlignment := BamAlignment)).
Implicit Types (m : gmap K (BamWriter (BamAlignment := BamAlignment))).

Lemma SaveAlignments_nil w : SaveAlignments [] w = w.
Proof. destruct w. unfold SaveAlignments. simpl. by rewrite app_nil_r. Qed.

Lemma SaveAlignments_cons al als w :
  SaveAlignments (al :: als) w = SaveAlignments als (SaveAlignment al w).
Proof. unfold SaveAlignments. simpl. by rewrite <- app_assoc. Qed.

Variable key : BamAlignment -> option K.

Lemma routed_cons_eq al rs k :
  key al = Some k -> routed key (al :: rs) k = al :: routed key rs k.
Proof. intros Hk. unfold routed. by rewrite filter_cons_True. Qed.

Lemma routed_cons_ne al rs k :
  key al ≠ Some k -> routed key (al :: rs) k = routed key rs k.
Proof. intros Hk. unfold routed. by rewrite filter_cons_False. Qed.

Lemma routed_key al rs k : al ∈ routed key rs k -> al ∈ rs /\ key al = Some k.
Proof. unfold routed. rewrite list_elem_of_filter. tauto. Qed.

Variable can_open : string -> bool.
Variable m_header : string.
Variable m_references : RefVector.
Variable outputFilename : K -> option string.

Local Abbreviation fresh_writer k :=
  (Open can_open (default EmptyString (outputFilename k)) m_header m_references
     new_BamWriter).
Local Abbreviation pool := (pool_after key can_open m_header m_references outputFilename).
Local Abbreviation loop := (SplitLoop can_open m_header m_references key outputFilename).

(** The entry of a key after a prefix of the input has been read. *)
Lemma pool_after_lookup rs : forall m k,
  pool rs m !! k =
  match m !! k with
  | Some w => Some (SaveAlignments (routed key rs k) w)
  | None =>
      match routed key rs k with
      | [] => None
      | _ :: _ => Some (SaveAlignments (routed key rs k) (fresh_writer k))
      end
  end.
Proof.
  induction rs as [|al rs IH]; intros m k.
  - simpl. destruct (m !! k) as [w|]; [|done]. by rewrite SaveAlignments_nil.
  - cbn [pool_after]. destruct (key al) as [v|] eqn:Hkey.
    + rewrite IH. destruct (decide (v = k)) as [->|Hne].
      * rewrite lookup_insert_eq, routed_cons_eq by done.
        destruct (m !! k); by rewrite SaveAlignments_cons.
      * rewrite lookup_insert_ne, routed_cons_ne by congruence. done.
    + rewrite IH, routed_cons_ne by congruence. done.
Qed.

(** While every name can be built, the loop just extends the map. *)
Lemma SplitLoop_app pre : forall rest m,
  names_defined key outputFilename pre ->
  loop (pre ++ rest) m = loop rest (pool pre m).
Proof.
  induction pre as [|al pre IH]; intros rest m Hdef; [done|].
  assert (names_defined key outputFilename pre) as Hpre.
  { intros al' v Hin. apply Hdef. by right. }
  cbn [app SplitLoop pool_after].
  destruct (key al) as [v|] eqn:Hkey; [|by apply IH].
  destruct (m !! v) as [w|] eqn:Hm; [by apply IH|].
  destruct (Hdef al v) as [name Hname]; [by left|done|].
  rewrite Hname. simpl. by apply IH.
Qed.

(** With every name defined the loop reads to the end of the input, closes
    every writer and returns [true]. *)
Lemma SplitLoop_complete rs m :
  names_defined key outputFilename rs ->
  loop rs m = mkResult (Returned true) [] (CloseAll (pool rs m)) [].
Proof.
  intros Hdef. rewrite <- (app_nil_r rs) at 1.
  by rewrite SplitLoop_app.
Qed.

Lemma CloseAll_pool_routes rs :
  routes_exactly key rs (CloseAll (pool rs ∅)).
Proof.
  intros k. unfold CloseAll.
  rewrite lookup_fmap, pool_after_lookup, lookup_empty.
  by destruct (routed key rs k).
Qed.

Lemma CloseAll_closed m k w : CloseAll m !! k = Some w -> IsClosed w = true.
Proof.
  unfold CloseAll. rewrite lookup_fmap.
  destruct (m !! k) as [w'|]; simpl; [|done]. by intros [= <-].
Qed.

(** A sink exists only for a key the map held before or a key met in the
    input, whether or not the run is cut short. *)
Lemma SplitLoop_keys rs : forall m k,
  is_Some (outputFiles (loop rs m) !! k) ->
  is_Some (m !! k) \/ exists al, al ∈ rs /\ key al = Some k.
Proof.
  induction rs as [|al rs IH]; intros m k.
  - simpl. unfold CloseAll. rewrite lookup_fmap, fmap_is_Some. by left.
  - cbn [SplitLoop].
    assert (forall m',
              (is_Some (m' !! k) -> key al = Some k \/ is_Some (m !! k)) ->
              is_Some (outputFiles (loop rs m') !! k) ->
              is_Some (m !! k) \/ exists al', al' ∈ al :: rs /\ key al' = Some k)
      as Hnext.
    { intros m' Hm' Hres. destruct (IH _ _ Hres) as [Hin|(al' & Hal' & Hk')].
      - destruct (Hm' Hin) as [Hk|Hm]; [right|by left].
        exists al. split; [by left|done].
      - right. exists al'. split; [by right|done]. }
    assert (forall v w', key al = Some v ->
              is_Some (<[v := w']> m !! k) -> key al = Some k \/ is_Some (m !! k))
      as Hins.
    { intros v w' Hv. destruct (decide (v = k)) as [->|Hne]; [by left|].
      rewrite lookup_insert_ne by done. by right. }
    destruct (key al) as [v|] eqn:Hkey.
    + destruct (m !! v) as [w|] eqn:Hm.
      * apply Hnext. by apply Hins.
      * destruct (outputFilename v) as [name|].
        -- apply Hnext. by apply Hins.
        -- simpl. by left.
    + apply Hnext. by right.
Qed.

End LoopFacts.

(** ** The map compared by [operator<] *)

Section StdMapFacts.

Context {K V : Type}.
Variable lt : K -> K -> bool.

Implicit Types (k : K) (v : V) (m : list (K * V)).

Local Abbreviation equiv := (StdMap.equivalent lt).

Lemma equivalent_sym a b : equiv a b = equiv b a.
Proof. unfold StdMap.equivalent. apply andb_comm. Qed.

Lemma lt_not_equivalent a b : lt a b = true -> equiv a b = false.
Proof. unfold StdMap.equivalent. by intros ->. Qed.

(** What [find] returns sits under a key equivalent to the one asked
    for. *)
Lemma find_Some k m v :
  StdMap.find lt k m = Some v -> exists k', (k', v) ∈ m /\ equiv k k' = true.
Proof.
  induction m as [|[k' v'] m IH]; [done|]. cbn [StdMap.find].
  destruct (lt k' k) eqn:H1.
  - intros (k0 & Hin & Heq)%IH. exists k0. split; [by right|done].
  - destruct (lt k k') eqn:H2; [done|]. intros [= <-].
    exists k'. split; [by left|]. unfold StdMap.equivalent. by rewrite H1, H2.
Qed.

Lemma elem_of_insert k v m e :
  e ∈ StdMap.insert lt k v m -> e = (k, v) \/ e ∈ m.
Proof.
  induction m as [|[k' v'] m IH]; cbn [StdMap.insert].
  - intros ->%list_elem_of_singleton. by left.
  - destruct (lt k' k).
    + intros [->|Hin]%elem_of_cons; [right; by left|].
      destruct (IH Hin) as [->|?]; [by left|right; by right].
    + destruct (lt k k'); [|by right].
      intros [->|Hin]%elem_of_cons; [by left|by right].
Qed.

Lemma elem_of_alter (f : V -> V) k m k' v' :
  (k', v') ∈ StdMap.alter lt f k m ->
  (k', v') ∈ m \/ exists v, (k', v) ∈ m /\ v' = f v.
Proof.
  induction m as [|[k0 v0] m IH]; cbn [StdMap.alter]; [by left|].
  destruct (lt k0 k).
  - intros [[= -> ->]|Hin]%elem_of_cons; [left; by left|].
    destruct (IH Hin) as [?|(v & ? & ?)]; [left; by right|].
    right. exists v. split; [by right|done].
  - destruct (lt k k0); [by left|].
    intros [[= -> ->]|Hin]%elem_of_cons; [|left; by right].
    right. exists v0. split; [by left|done].
Qed.

(** From here on the keys in play are ordered by [lt] as a strict weak
    order. *)
Variable keys : list K.
Hypothesis Hswo : strict_weak_on lt keys.

Lemma equivalent_refl a : a ∈ keys -> equiv a a = true.
Proof.
  destruct Hswo as (Hirr & _). intros Ha.
  unfold StdMap.equivalent. by rewrite Hirr.
Qed.

Lemma ascending_lookup m i j e1 e2 :
  ascending lt m -> m !! i = Some e1 -> m !! j = Some e2 ->
  equiv e1.1 e2.1 = true -> (forall e, e ∈ m -> e.1 ∈ keys) -> i = j.
Proof.
  destruct Hswo as (Hirr & _).
  revert i j. induction m as [|[k v] m IH]; intros i j Hasc Hi Hj Heq Hkeys; [done|].
  destruct Hasc as [Hhead Hasc]. rewrite Forall_forall in Hhead.
  destruct i as [|i], j as [|j]; simpl in Hi, Hj; simplify_eq/=.
  - done.
  - apply list_elem_of_lookup_2 in Hj.
    by rewrite (lt_not_equivalent _ _ (Hhead _ Hj)) in Heq.
  - apply list_elem_of_lookup_2 in Hi.
    by rewrite equivalent_sym, (lt_not_equivalent _ _ (Hhead _ Hi)) in Heq.
  - f_equal. apply (IH i j); [done..|]. intros e He. apply Hkeys. by right.
Qed.

(** In an ascending map, [find] fails only when no key is equivalent. *)
Lemma find_None k m :
  ascending lt m -> k ∈ keys -> (forall e, e ∈ m -> e.1 ∈ keys) ->
  StdMap.find lt k m = None ->
  Forall (fun e => equiv k e.1 = false) m.
Proof.
  destruct Hswo as (_ & Htrans & _).
  induction m as [|[k' v'] m IH]; intros Hasc Hk Hkeys; [by constructor|].
  destruct Hasc as [Hhead Hasc]. cbn [StdMap.find].
  assert (k' ∈ keys) as Hk' by (apply (Hkeys (k', v')); by left).
  assert (forall e, e ∈ m -> e.1 ∈ keys) as Hkeys'
    by (intros e He; apply Hkeys; by right).
  destruct (lt k' k) eqn:H1.
  - intros Hfind. constructor; [|by apply IH].
    simpl. by rewrite equivalent_sym, lt_not_equivalent.
  - destruct (lt k k') eqn:H2; [|done]. intros _. constructor.
    + by apply lt_not_equivalent.
    + rewrite Forall_forall in Hhead. apply Forall_forall. intros e He.
      apply lt_not_equivalent.
      apply (Htrans k k' e.1); [done|done|by apply Hkeys'|done|by apply Hhead].
Qed.

(** In an ascending map, the update after [find] changes exactly the
    entries with an equivalent key, and there is one at most. *)
Lemma alter_ascending (f : V -> V) k m :
  ascending lt m -> k ∈ keys -> (forall e, e ∈ m -> e.1 ∈ keys) ->
  is_Some (StdMap.find lt k m) ->
  StdMap.alter lt f k m =
  (fun e => (e.1, if equiv k e.1 then f e.2 else e.2)) <$> m.
Proof.
  destruct Hswo as (_ & _ & Hequiv).
  induction m as [|[k' v'] m IH]; intros Hasc Hk Hkeys; [done|].
  destruct Hasc as [Hhead Hasc]. cbn [StdMap.find StdMap.alter fmap list_fmap].
  assert (k' ∈ keys) as Hk' by (apply (Hkeys (k', v')); by left).
  assert (forall e, e ∈ m -> e.1 ∈ keys) as Hkeys'
    by (intros e He; apply Hkeys; by right).
  destruct (lt k' k) eqn:H1.
  - intros Hfind. simpl.
    rewrite (equivalent_sym k k'), (lt_not_equivalent _ _ H1).
    f_equal. by apply IH.
  - destruct (lt k k') eqn:H2; [by intros [? ?]|]. intros _. simpl.
    assert (equiv k k' = true) as Hkk'
      by (unfold StdMap.equivalent; by rewrite H1, H2).
    rewrite Hkk'. f_equal.
    rewrite <- (list_fmap_id m) at 1. apply Forall_fmap_ext, Forall_forall.
    intros [k0 v0] He. simpl.
    destruct (equiv k k0) eqn:Hkk0; [|done]. exfalso.
    rewrite Forall_forall in Hhead. specialize (Hhead _ He). simpl in Hhead.
    apply lt_not_equivalent in Hhead.
    rewrite (Hequiv k' k k0) in Hhead; [done|done|done|by apply (Hkeys' (k0, v0))| |done].
    by rewrite equivalent_sym.
Qed.

(** In an ascending map, [insert] after a failed [find] adds the entry
    and keeps the order. *)
Lemma insert_ascending k v m :
  ascending lt m -> k ∈ keys -> (forall e, e ∈ m -> e.1 ∈ keys) ->
  StdMap.find lt k m = None ->
  ascending lt (StdMap.insert lt k v m) /\
  StdMap.insert lt k v m ≡ₚ (k, v) :: m.
Proof.
  destruct Hswo as (_ & Htrans & _).
  induction m as [|[k' v'] m IH]; intros Hasc Hk Hkeys; [by repeat split|].
  destruct Hasc as [Hhead Hasc]. cbn [StdMap.find StdMap.insert].
  assert (k' ∈ keys) as Hk' by (apply (Hkeys (k', v')); by left).
  assert (forall e, e ∈ m -> e.1 ∈ keys) as Hkeys'
    by (intros e He; apply Hkeys; by right).
  destruct (lt k' k) eqn:H1.
  - intros Hfind. destruct (IH Hasc Hk Hkeys' Hfind) as [Hasc' Hperm].
    split; [split; [|done]|].
    + rewrite Hperm. by constructor.
    + rewrite Hperm. apply Permutation_swap.
  - destruct (lt k k') eqn:H2; [|done]. intros _. split; [|done].
    split; [|by split]. constructor; [done|].
    rewrite Forall_forall in Hhead. apply Forall_forall. intros e He.
    apply (Htrans k k' e.1); [done|done|by apply Hkeys'|done|by apply Hhead].
Qed.

End StdMapFacts.

(** ** The loop over the map compared by [operator<] *)

Section OrderedLoopFacts.

Context {BamAlignment : Type} {K : Type}.

Variable can_open : string -> bool.
Variable m_header : string.
Variable m_references : RefVector.
Variable lt : K -> K -> bool.
Variable key : BamAlignment -> option K.
Variable name : K -> string.

Implicit Types (al : BamAlignment) (rs : list BamAlignment).
Implicit Types (w : BamWriter (BamAlignment := BamAlignment)).
Implicit Types (m : list (K * BamWriter (BamAlignment := BamAlignment))).

Local Abbreviation equiv := (StdMap.equivalent lt).
Local Abbreviation fresh k :=
  (Open can_open (name k) m_header m_references new_BamWriter).
Local Abbreviation pool := (pool_ordered lt key can_open m_header m_references name).
Local Abbreviation loop := (SplitLoopOrdered can_open m_header m_references lt key name).

(** The loop always reads to the end of the input, closes every writer
    and returns [true]. *)
Lemma SplitLoopOrdered_pool rs : forall m,
  loop rs m = mkResult (Returned true) [] (CloseEach (pool rs m)) [].
Proof.
  induction rs as [|al rs IH]; intros m; [done|].
  cbn [SplitLoopOrdered pool_ordered].
  destruct (key al) as [v|]; [|apply IH].
  destruct (StdMap.find lt v m); apply IH.
Qed.

(** [SplitTag_Real] treats its first alignment as the loop would. *)
Lemma FirstAlignmentOrdered_loop al rs :
  loop rs (FirstAlignmentOrdered can_open m_header m_references lt key name al) =
  loop (al :: rs) [].
Proof.
  unfold FirstAlignmentOrdered. cbn [SplitLoopOrdered].
  by destruct (key al).
Qed.

Lemma elem_of_CloseEach m k w' :
  (k, w') ∈ CloseEach m <-> exists w, (k, w) ∈ m /\ w' = Close w.
Proof.
  unfold CloseEach. rewrite list_elem_of_fmap. split.
  - intros ([k0 w] & [= -> ->] & Hin). by exists w.
  - intros (w & Hin & ->). by exists (k, w).
Qed.

Lemma CloseEach_closed m : Forall (fun w => IsClosed w = true) (CloseEach m).*2.
Proof.
  apply Forall_forall. intros w' Hw'.
  apply list_elem_of_fmap in Hw' as [[k w0] [-> Hw']].
  by apply elem_of_CloseEach in Hw' as (w & _ & ->).
Qed.

(** A property of writers that holds once a writer has been opened and
    given its first record, and that further records and [Close] keep,
    holds of every writer the loop leaves behind. *)
Lemma SplitLoopOrdered_writers_inv
  (J : K -> BamWriter (BamAlignment := BamAlignment) -> Prop) rs : forall m,
  (forall al k, al ∈ rs -> key al = Some k -> J k (SaveAlignment al (fresh k))) ->
  (forall al k w, al ∈ rs -> J k w -> J k (SaveAlignment al w)) ->
  (forall k w, J k w -> J k (Close w)) ->
  (forall k w, (k, w) ∈ m -> J k w) ->
  forall k w, (k, w) ∈ outputFiles (loop rs m) -> J k w.
Proof.
  induction rs as [|al rs IH]; intros m Hfirst Hnext Hclose Hm k w.
  - cbn. intros (w0 & Hin & ->)%elem_of_CloseEach. by apply Hclose, Hm.
  - assert (forall m', (forall k w, (k, w) ∈ m' -> J k w) ->
              (k, w) ∈ outputFiles (loop rs m') -> J k w) as Hrest.
    { intros m' Hm'. apply IH; [| |done|done].
      - intros al' k' Hin. apply Hfirst. by right.
      - intros al' k' w' Hin. apply Hnext. by right. }
    cbn [SplitLoopOrdered]. destruct (key al) as [v|] eqn:Hkey; [|by apply Hrest].
    destruct (StdMap.find lt v m); apply Hrest; intros k' w'.
    + intros [Hin|(w0 & Hin & ->)]%elem_of_alter; [by apply Hm|].
      apply Hnext; [by left|]. by apply Hm.
    + intros [[= -> ->]|Hin]%elem_of_insert; [|by apply Hm].
      apply Hfirst; [by left|done].
Qed.

Lemma class_routed_cons_in al rs k :
  in_class lt key k al = true ->
  class_routed lt key (al :: rs) k = al :: class_routed lt key rs k.
Proof. intros Hk. unfold class_routed. by rewrite filter_cons_True. Qed.

Lemma class_routed_cons_out al rs k :
  in_class lt key k al = false ->
  class_routed lt key (al :: rs) k = class_routed lt key rs k.
Proof.
  intros Hk. unfold class_routed. rewrite filter_cons_False; [done|].
  by rewrite Hk.
Qed.

Lemma ascending_fmap
  (g : K * BamWriter (BamAlignment := BamAlignment) ->
       K * BamWriter (BamAlignment := BamAlignment)) m :
  (forall e, (g e).1 = e.1) -> ascending lt m -> ascending lt (g <$> m).
Proof.
  intros Hg. induction m as [|[k w] m IH]; [done|].
  intros [Hhead Hasc]. cbn [fmap list_fmap ascending].
  specialize (Hg (k, w)) as Hk. destruct (g (k, w)) as [k' w']. simpl in Hk.
  subst k'. split; [|by apply IH].
  apply Forall_fmap. eapply Forall_impl; [done|].
  intros e He. simpl. by rewrite Hg.
Qed.

Variable keys : list K.
Hypothesis Hswo : strict_weak_on lt keys.

(** The map after a stretch of input, entry by entry: an entry that was
    there has gained the records of its class; an entry that is new
    belongs to a class without an entry before, and holds the records of
    that class. *)
Lemma pool_ordered_spec rs : forall m,
  ascending lt m -> (forall e, e ∈ m -> e.1 ∈ keys) ->
  (forall v, v ∈ omap key rs -> v ∈ keys) ->
  ascending lt (pool rs m) /\
  (forall e, e ∈ pool rs m -> e.1 ∈ keys) /\
  (forall k w, (k, w) ∈ m -> exists w', (k, w') ∈ pool rs m) /\
  (forall v, v ∈ omap key rs ->
     exists k w, (k, w) ∈ pool rs m /\ equiv v k = true) /\
  (forall k w', (k, w') ∈ pool rs m ->
     exists w0,
       w' = SaveAlignments (class_routed lt key rs k) w0 /\
       ((k, w0) ∈ m \/
        (Forall (fun e => equiv k e.1 = false) m /\ k ∈ omap key rs /\
         w0 = fresh k))).
Proof.
  destruct Hswo as (Hirr & Htrans & Hequiv).
  induction rs as [|al rs IH]; intros m Hasc Hm Hrs.
  { cbn. repeat split; [done|done|by eauto|by intros v ?%elem_of_nil|].
    intros k w' Hin. exists w'. split; [by rewrite SaveAlignments_nil|by left]. }
  cbn [pool_ordered]. destruct (key al) as [v|] eqn:Hkey.
  2:{ assert (omap key (al :: rs) = omap key rs) as Homap by (cbn; by rewrite Hkey).
      rewrite Homap in *.
      destruct (IH m Hasc Hm Hrs) as (H0 & H1 & H2 & H3 & H4).
      repeat split; [done..|].
      intros k w' Hin. rewrite class_routed_cons_out; [by apply H4|].
      unfold in_class. by rewrite Hkey. }
  assert (omap key (al :: rs) = v :: omap key rs) as Homap by (cbn; by rewrite Hkey).
  rewrite Homap in *.
  assert (v ∈ keys) as Hv by (apply Hrs; by left).
  assert (forall v0, v0 ∈ omap key rs -> v0 ∈ keys) as Hrs'
    by (intros v0 ?; apply Hrs; by right).
  assert (forall k, in_class lt key k al = equiv v k) as Hclass
    by (intros k; unfold in_class; by rewrite Hkey).
  destruct (StdMap.find lt v m) as [wf|] eqn:Hfind.
  - (* the writer of the class is there: it receives the record *)
    rewrite (alter_ascending lt keys (conj Hirr (conj Htrans Hequiv)))
      by (done || by eexists).
    set (g := fun e : K * BamWriter (BamAlignment := BamAlignment) =>
                (e.1, if equiv v e.1 then SaveAlignment al e.2 else e.2)).
    assert (ascending lt (g <$> m)) as Hasc1 by by apply ascending_fmap.
    assert (forall e, e ∈ g <$> m -> e.1 ∈ keys) as Hm1.
    { intros e (e0 & -> & He0)%list_elem_of_fmap. simpl. by apply Hm. }
    destruct (IH (g <$> m) Hasc1 Hm1 Hrs') as (H0 & H1 & H2 & H3 & H4).
    apply find_Some in Hfind as (k0 & Hk0 & Hvk0).
    repeat split; [done|done| | |].
    + intros k w Hin. apply (H2 k (g (k, w)).2).
      apply list_elem_of_fmap. by exists (k, w).
    + intros v0 [->|Hv0]%elem_of_cons; [|by apply H3].
      destruct (H2 k0 (g (k0, wf)).2) as (w' & Hw').
      { apply list_elem_of_fmap. by exists (k0, wf). }
      by exists k0, w'.
    + intros k w' Hin. destruct (H4 k w' Hin) as (w0 & -> & [Hw0|(Hnew & Hk & ->)]).
      * apply list_elem_of_fmap in Hw0 as ([k1 w1] & [= -> ->] & Hin1).
        exists w1. split; [|by left]. simpl.
        destruct (equiv v k1) eqn:Hvk1.
        -- rewrite class_routed_cons_in by by rewrite Hclass.
           by rewrite SaveAlignments_cons.
        -- by rewrite class_routed_cons_out by by rewrite Hclass.
      * assert (equiv v k = false) as Hvk.
        { destruct (equiv v k) eqn:Hvk; [|done]. exfalso.
          rewrite Forall_forall in Hnew.
          specialize (Hnew (g (k0, wf))) as Hkk0. simpl in Hkk0.
          rewrite (Hequiv k v k0) in Hkk0;
            [discriminate Hkk0; apply list_elem_of_fmap; by exists (k0, wf)
            |by apply Hrs'|done|by apply (Hm (k0, wf))
            |by rewrite equivalent_sym|done]. }
        exists (fresh k). split.
        -- by rewrite class_routed_cons_out by by rewrite Hclass.
        -- right. split; [|split; [by right|done]].
           apply Forall_fmap in Hnew. eapply Forall_impl; [exact Hnew|].
           by intros e He.
  - (* no writer for the class: a new one is opened and inserted *)
    set (wv := SaveAlignment al (fresh v)).
    destruct (insert_ascending lt keys (conj Hirr (conj Htrans Hequiv)) v wv m
                Hasc Hv Hm Hfind) as [Hasc1 Hperm].
    pose proof (find_None lt keys (conj Hirr (conj Htrans Hequiv)) v m
                  Hasc Hv Hm Hfind) as Hnone.
    rewrite Forall_forall in Hnone.
    assert (forall e, e ∈ StdMap.insert lt v wv m -> e.1 ∈ keys) as Hm1.
    { intros e He. rewrite Hperm in He.
      apply elem_of_cons in He as [->|He]; [done|by apply Hm]. }
    destruct (IH _ Hasc1 Hm1 Hrs') as (H0 & H1 & H2 & H3 & H4).
    repeat split; [done|done| | |].
    + intros k w Hin. apply (H2 k w). rewrite Hperm. by right.
    + intros v0 [->|Hv0]%elem_of_cons; [|by apply H3].
      destruct (H2 v wv) as (w' & Hw'); [rewrite Hperm; by left|].
      exists v, w'. split; [done|].
      by apply (equivalent_refl lt keys (conj Hirr (conj Htrans Hequiv))).
    + intros k w' Hin. destruct (H4 k w' Hin) as (w0 & -> & [Hw0|(Hnew & Hk & ->)]).
      * rewrite Hperm in Hw0. apply elem_of_cons in Hw0 as [[= -> ->]|Hw0].
        -- exists (fresh v). split.
           ++ rewrite class_routed_cons_in; [by rewrite SaveAlignments_cons|].
              rewrite Hclass.
              by apply (equivalent_refl lt keys (conj Hirr (conj Htrans Hequiv))).
           ++ right. split; [by apply Forall_forall|]. split; [by left|done].
        -- exists w0. split; [|by left].
           rewrite class_routed_cons_out; [done|].
           rewrite Hclass. by apply (Hnone (k, w0)).
      * rewrite Forall_forall in Hnew.
        assert (equiv v k = false) as Hvk.
        { rewrite equivalent_sym. apply (Hnew (v, wv)). rewrite Hperm. by left. }
        exists (fresh k). split.
        -- by rewrite class_routed_cons_out by by rewrite Hclass.
        -- right. split; [|split; [by right|done]].
           apply Forall_forall. intros e He. apply Hnew. rewrite Hperm. by right.
Qed.

(** Exactly-once routing by class, when the keys met are ordered as a
    strict weak order. *)
Lemma SplitLoopOrdered_routes rs :
  (forall v, v ∈ omap key rs -> v ∈ keys) ->
  routes_by_class lt key rs (outputFiles (loop rs [])).
Proof.
  intros Hrs. rewrite SplitLoopOrdered_pool. cbn [outputFiles].
  destruct (pool_ordered_spec rs [] I (fun e He => False_ind _ (proj1 (elem_of_nil e) He)) Hrs)
    as (Hasc & Hkeys & _ & Hcover & Hentry).
  split; [|split].
  - intros al v Hal Hkey.
    destruct (Hcover v) as (k & w & Hin & Heq).
    { apply list_elem_of_omap. by exists al. }
    exists k, (Close w). split; [|done]. apply elem_of_CloseEach. by exists w.
  - intros k w' (w & Hin & ->)%elem_of_CloseEach.
    destruct (Hentry k w Hin) as (w0 & -> & [Hnil|(_ & Hk & ->)]);
      [by apply elem_of_nil in Hnil|].
    by split.
  - intros i j k1 w1 k2 w2. unfold CloseEach. rewrite !list_lookup_fmap.
    destruct (pool rs [] !! i) as [[k1' w1']|] eqn:Hi; [|done].
    destruct (pool rs [] !! j) as [[k2' w2']|] eqn:Hj; [|done].
    simpl. intros [= <- _] [= <- _] Heq.
    by apply (ascending_lookup lt keys Hswo (pool rs []) i j (k1', w1') (k2', w2')).
Qed.

End OrderedLoopFacts.

(** ** What [routes_exactly] says, in plain terms *)

Section RoutingFacts.

Context {BamAlignment : Type} {K : Type} `{Countable K}.
Variable key : BamAlignment -> option K.

Implicit Types (m : gmap K (BamWriter (BamAlignment := BamAlignment))).

(** The sink of a key holds the input records of that key, in input order. *)
Lemma routes_exactly_sink rs m k :
  routes_exactly key rs m -> sink m k = routed key rs k.
Proof.
  intros Hr. unfold sink. rewrite (Hr k). by destruct (routed key rs k).
Qed.

(** A record is only ever found in the sink of its own key; a record
    without a key is in no sink. *)
Lemma routes_exactly_own_key rs m k al :
  routes_exactly key rs m -> al ∈ sink m k -> al ∈ rs /\ key al = Some k.
Proof.
  intros Hr. rewrite (routes_exactly_sink rs m k Hr). apply routed_key.
Qed.

(** A sink exists exactly for the keys of the input records. *)
Lemma routes_exactly_dom rs m k :
  routes_exactly key rs m ->
  is_Some (m !! k) <-> exists al, al ∈ rs /\ key al = Some k.
Proof.
  intros Hr. rewrite <- (fmap_is_Some Alignments), (Hr k). split.
  - destruct (routed key rs k) as [|al als] eqn:Hrt; [by intros [? ?]|].
    intros _. exists al. apply routed_key. rewrite Hrt. by left.
  - intros (al & Hin & Hk).
    assert (al ∈ routed key rs k) as Hal.
    { unfold routed. by apply list_elem_of_filter. }
    destruct (routed key rs k); [by apply elem_of_nil in Hal|done].
Qed.

End RoutingFacts.

(** ** The split functions *)

Section SplitFacts.

Context {BamAlignment Float : Type}.
Context `{!BamAlignmentAPI BamAlignment Float}.

Variable can_open : string -> bool.
Variable m_outputFilenameStub : string.
Variable m_header : string.
Variable m_references : RefVector.

Implicit Types (al : BamAlignment) (rs : list BamAlignment).

Section Total.

Context {K : Type} `{Countable K}.
Variable key : BamAlignment -> option K.
Variable name : K -> string.

Local Abbreviation loop :=
  (SplitLoop can_open m_header m_references key (fun v => Some (name v))).

Lemma names_defined_total rs : names_defined key (fun v => Some (name v)) rs.
Proof. intros al v _ _. by eexists. Qed.

(** A split loop whose file names never fail to build reads the whole
    input, closes every writer and returns [true], whatever [Open] did. *)
Lemma SplitLoop_total rs m :
  loop rs m =
  mkResult (Returned true) []
    (CloseAll (pool_after key can_open m_header m_references
                 (fun v => Some (name v)) rs m)) [].
Proof. apply SplitLoop_complete, names_defined_total. Qed.

Lemma SplitLoop_total_routes rs :
  routes_exactly key rs (outputFiles (loop rs ∅)).
Proof. rewrite SplitLoop_total. apply CloseAll_pool_routes. Qed.

(** The writers a complete run leaves behind: closed, under the name of
    their key, opened or not as [Open] fared, and holding their records. *)
Lemma SplitLoop_total_writer rs k w :
  outputFiles (loop rs ∅) !! k = Some w ->
  IsClosed w = true /\ Filename w = name k /\
  IsOpen w = can_open (name k) /\ Alignments w = routed key rs k.
Proof.
  rewrite SplitLoop_total. cbn [outputFiles]. unfold CloseAll.
  rewrite lookup_fmap, pool_after_lookup, lookup_empty.
  destruct (routed key rs k) as [|al als]; [done|].
  simpl. by intros [= <-].
Qed.

(** The tag functions treat their first alignment as the loop would. *)
Lemma FirstAlignment_loop al rs :
  loop rs (FirstAlignment can_open m_header m_references key name al) =
  loop (al :: rs) ∅.
Proof.
  unfold FirstAlignment. cbn [SplitLoop].
  destruct (key al) as [v|]; [|done]. by rewrite lookup_empty.
Qed.

End Total.

Local Abbreviation Mapped := (SplitMapped can_open m_outputFilenameStub m_header m_references).
Local Abbreviation Paired := (SplitPaired can_open m_outputFilenameStub m_header m_references).
Local Abbreviation Reference := (SplitReference can_open m_outputFilenameStub m_header m_references).
Local Abbreviation Tag := (SplitTag can_open m_outputFilenameStub m_header m_references).

(** Reference mode builds every name when every id is an index of the
    reference table. *)
Lemma ReferenceFilename_defined rs :
  Forall (fun al => is_Some (vector_at m_references (RefID al))) rs ->
  names_defined (fun al => Some (RefID al))
    (ReferenceFilename m_outputFilenameStub m_references) rs.
Proof.
  intros Hall al v Hin [= <-].
  rewrite Forall_forall in Hall. destruct (Hall al Hin) as [ref Href].
  unfold ReferenceFilename. rewrite Href. by eexists.
Qed.

Lemma SplitReference_routes rs :
  Forall (fun al => is_Some (vector_at m_references (RefID al))) rs ->
  outcome (Reference rs) = Returned true /\
  routes_exactly (fun al => Some (RefID al)) rs (outputFiles (Reference rs)).
Proof.
  intros Hall. unfold SplitReference.
  rewrite SplitLoop_complete by by apply ReferenceFilename_defined.
  split; [done|]. apply CloseAll_pool_routes.
Qed.

Lemma CloseAll_all_closed {K : Type} `{Countable K}
  (m : gmap K (BamWriter (BamAlignment := BamAlignment))) :
  Forall (fun w => IsClosed w = true) (map_to_list (CloseAll m)).*2.
Proof.
  apply Forall_forall. intros w Hw.
  apply list_elem_of_fmap in Hw as [[k w'] [-> Hw]].
  apply elem_of_map_to_list in Hw. by eapply CloseAll_closed.
Qed.

(** Tag mode skips the records in front of the first one that carries the
    tag. *)
Lemma SplitTag_skip tag pre rest :
  Forall (lacks_tag tag) pre -> Tag tag (pre ++ rest) = Tag tag rest.
Proof.
  induction 1 as [|al pre Hal _ IH]; [done|].
  cbn [app SplitTag]. unfold lacks_tag in Hal. by rewrite Hal.
Qed.

(** ... and hands the rest to the function of the family of that record,
    which reads to the end, closes its writers and returns [true]. *)
Lemma SplitTag_dispatch_run tag al post tagType family :
  GetTagType al tag = Some tagType ->
  family_of tagType = Some family ->
  outcome (Tag tag (al :: post)) = Returned true /\
  unread (Tag tag (al :: post)) = [] /\
  cerr (Tag tag (al :: post)) = [] /\
  Forall (fun w => IsClosed w = true) (writers (outputFiles (Tag tag (al :: post)))).
Proof.
  intros Htype Hfam. cbn [SplitTag]. rewrite Htype, Hfam.
  destruct family; unfold SplitTag_Int, SplitTag_UInt, SplitTag_Real,
    SplitTag_String; cbv zeta;
    [rewrite FirstAlignment_loop, SplitLoop_total..
    |rewrite FirstAlignmentOrdered_loop, SplitLoopOrdered_pool
    |rewrite FirstAlignment_loop, SplitLoop_total];
    (repeat split; [apply CloseAll_all_closed || apply CloseEach_closed]).
Qed.

(** The records are routed by their value; in the float family by the
    class of their value, when [operator<] orders the values met. *)
Lemma SplitTag_dispatch tag al post tagType family :
  GetTagType al tag = Some tagType ->
  family_of tagType = Some family ->
  (family = Real -> float_keys_ordered tag (al :: post)) ->
  outcome (Tag tag (al :: post)) = Returned true /\
  unread (Tag tag (al :: post)) = [] /\
  cerr (Tag tag (al :: post)) = [] /\
  tag_routes tag family (al :: post) (outputFiles (Tag tag (al :: post))) /\
  Forall (fun w => IsClosed w = true) (writers (outputFiles (Tag tag (al :: post)))).
Proof.
  intros Htype Hfam Hord.
  destruct (SplitTag_dispatch_run tag al post tagType family Htype Hfam)
    as (Hout & Hun & Herr & Hclosed).
  repeat split; [done..| |done].
  cbn [SplitTag]. rewrite Htype, Hfam.
  destruct family; unfold SplitTag_Int, SplitTag_UInt, SplitTag_Real,
    SplitTag_String; cbv zeta.
  - rewrite FirstAlignment_loop, SplitLoop_total. apply CloseAll_pool_routes.
  - rewrite FirstAlignment_loop, SplitLoop_total. apply CloseAll_pool_routes.
  - rewrite FirstAlignmentOrdered_loop. cbn [with_files outputFiles tag_routes].
    by apply (SplitLoopOrdered_routes can_open m_header m_references float_lt
                _ _ _ (Hord eq_refl)).
  - rewrite FirstAlignment_loop, SplitLoop_total. apply CloseAll_pool_routes.
Qed.

End SplitFacts.

(** ** Routing *)

Section Routing.

Context {BamAlignment Float : Type}.
Context `{!BamAlignmentAPI BamAlignment Float}.

Variable can_open : string -> bool.
Variable m_outputFilenameStub : string.
Variable m_header : string.
Variable m_references : RefVector.

Implicit Types (al : BamAlignment) (rs : list BamAlignment).

Local Abbreviation Mapped := (SplitMapped can_open m_outputFilenameStub m_header m_references).
Local Abbreviation Paired := (SplitPaired can_open m_outputFilenameStub m_header m_references).
Local Abbreviation Reference := (SplitReference can_open m_outputFilenameStub m_header m_references).
Local Abbreviation Tag := (SplitTag can_open m_outputFilenameStub m_header m_references).

(** C1 (as amended).  Exactly-once, order-preserving routing
    ([routes_exactly]: a key has a sink exactly when a record has that key,
    and the sink received precisely the records of that key, each once, in
    input order, so that a record without a key is in no sink) holds
    - in mapped mode and in paired mode, for every input;
    - in reference mode, for every input all of whose reference ids are
      indices of the reference table;
    - in tag mode, for every input whose first record carrying the tag has
      one of the ten recognized storage classes: the records from that one
      on are routed by the value the extractor of its family returns for
      them, and are skipped where it returns none; the records in front of
      it lack the tag and are written nowhere.  In the float family the
      sinks are kept in a [std::map<float, _>], which tells keys apart by
      [operator<] and not by equality: there the statement is made for the
      inputs whose float values are ordered by [operator<] as a strict
      weak order, that is, without NaN among them, and a record is routed
      by the equivalence class of its value ([routes_by_class]; the two
      zeros are one class). *)
Theorem split_routes_each_record_once_in_order :
  (forall rs,
     routes_exactly (fun al => Some (IsMapped al)) rs (outputFiles (Mapped rs))) /\
  (forall rs,
     routes_exactly (fun al => Some (IsPaired al)) rs (outputFiles (Paired rs))) /\
  (forall rs,
     Forall (fun al => is_Some (vector_at m_references (RefID al))) rs ->
     routes_exactly (fun al => Some (RefID al)) rs (outputFiles (Reference rs))) /\
  (forall tag pre al post tagType family,
     Forall (lacks_tag tag) pre ->
     GetTagType al tag = Some tagType ->
     family_of tagType = Some family ->
     (family = Real -> float_keys_ordered tag (al :: post)) ->
     tag_routes tag family (al :: post)
       (outputFiles (Tag tag (pre ++ al :: post)))).
Proof.
  split; [|split; [|split]].
  - intros rs. apply SplitLoop_total_routes.
  - intros rs. apply SplitLoop_total_routes.
  - intros rs Hall. by apply SplitReference_routes.
  - intros tag pre al post tagType family Hpre Htype Hfam Hord.
    rewrite SplitTag_skip by done.
    by apply (SplitTag_dispatch can_open m_outputFilenameStub m_header
                m_references tag al post tagType family).
Qed.

(** C2 (as amended).  Once the first record carrying the tag has a text
    storage class ('A', 'Z' or 'H'), the storage class of later records is
    never looked at again: whatever classes they carry, the run reads the
    whole input, routes every later record by what the text extractor
    returns for it (skipping it where the extractor fails), closes every
    writer and returns success, with nothing on the error channel. *)
Theorem text_path_never_rejects_a_later_record tag pre al post tagType :
  Forall (lacks_tag tag) pre ->
  GetTagType al tag = Some tagType ->
  family_of tagType = Some Text ->
  let r := Tag tag (pre ++ al :: post) in
  outcome r = Returned true /\ unread r = [] /\ cerr r = [] /\
  (exists m, outputFiles r = StringFiles m /\
             routes_exactly (fun al => GetTag_string al tag) (al :: post) m) /\
  Forall (fun w => IsClosed w = true) (writers (outputFiles r)).
Proof.
  intros Hpre Htype Hfam r. subst r. rewrite SplitTag_skip by done.
  destruct (SplitTag_dispatch can_open m_outputFilenameStub m_header
              m_references tag al post tagType Text Htype Hfam
              ltac:(discriminate))
    as (Hout & Hun & Herr & Hroutes & Hclosed).
  repeat split; try done.
  unfold tag_routes in Hroutes.
  destruct (outputFiles (Tag tag (al :: post))) as [|m|m|m|m|m]; try done.
  by exists m.
Qed.

(** C4 (as amended).  No split function looks at what [Open] achieved.
    Whether or not a destination could be created, the run goes on: each
    writer is entered in the map under its key, receives the records of
    its key, and is closed at the end of the input, and the function
    returns success.  This holds in mapped and paired mode and in the four
    tag functions for every input, and in reference mode for every input
    whose reference ids are all indices of the reference table.  (In the
    float function, whose map tells keys apart by [operator<], what is
    stated of a writer is that it has received records; which ones is the
    matter of C1.) *)
Theorem open_failure_is_not_detected :
  (forall rs,
     outcome (Mapped rs) = Returned true /\
     forall k w, outputFiles (Mapped rs) !! k = Some w ->
       IsOpen w = can_open (Filename w) /\ IsClosed w = true /\
       Alignments w = routed (fun al => Some (IsMapped al)) rs k) /\
  (forall rs,
     outcome (Paired rs) = Returned true /\
     forall k w, outputFiles (Paired rs) !! k = Some w ->
       IsOpen w = can_open (Filename w) /\ IsClosed w = true /\
       Alignments w = routed (fun al => Some (IsPaired al)) rs k) /\
  (forall rs,
     Forall (fun al => is_Some (vector_at m_references (RefID al))) rs ->
     outcome (Reference rs) = Returned true /\
     forall k w, outputFiles (Reference rs) !! k = Some w ->
       IsOpen w = can_open (Filename w) /\ IsClosed w = true /\
       Alignments w = routed (fun al => Some (RefID al)) rs k) /\
  (forall tag al rs,
     let r := SplitTag_Int can_open m_outputFilenameStub m_header m_references tag al rs in
     outcome r = Returned true /\
     forall k w, outputFiles r !! k = Some w ->
       IsOpen w = can_open (Filename w) /\ IsClosed w = true /\
       Alignments w = routed (fun al => GetTag_int32 al tag) (al :: rs) k) /\
  (forall tag al rs,
     let r := SplitTag_UInt can_open m_outputFilenameStub m_header m_references tag al rs in
     outcome r = Returned true /\
     forall k w, outputFiles r !! k = Some w ->
       IsOpen w = can_open (Filename w) /\ IsClosed w = true /\
       Alignments w = routed (fun al => GetTag_uint32 al tag) (al :: rs) k) /\
  (forall tag al rs,
     let r := SplitTag_Real can_open m_outputFilenameStub m_header m_references tag al rs in
     outcome r = Returned true /\
     forall k w, (k, w) ∈ outputFiles r ->
       IsOpen w = can_open (Filename w) /\ IsClosed w = true /\
       Alignments w <> []) /\
  (forall tag al rs,
     let r := SplitTag_String can_open m_outputFilenameStub m_header m_references tag al rs in
     outcome r = Returned true /\
     forall k w, outputFiles r !! k = Some w ->
       IsOpen w = can_open (Filename w) /\ IsClosed w = true /\
       Alignments w = routed (fun al => GetTag_string al tag) (al :: rs) k).
Proof.
  assert (forall `{Countable K} (key : BamAlignment -> option K) name rs,
            let r := SplitLoop can_open m_header m_references key
                       (fun v => Some (name v)) rs ∅ in
            outcome r = Returned true /\
            forall k w, outputFiles r !! k = Some w ->
              IsOpen w = can_open (Filename w) /\ IsClosed w = true /\
              Alignments w = routed key rs k) as Htotal.
  { intros K ? ? key name rs r. subst r. split.
    - by rewrite SplitLoop_total.
    - intros k w Hw.
      apply SplitLoop_total_writer in Hw as (? & -> & ? & ?). done. }
  split; [intros rs; apply Htotal|].
  split; [intros rs; apply Htotal|].
  split.
  { intros rs Hall.
    pose proof (ReferenceFilename_defined m_outputFilenameStub m_references rs Hall)
      as Hdef.
    unfold SplitReference. rewrite SplitLoop_complete by done.
    split; [done|]. intros k w. cbn [outputFiles]. unfold CloseAll.
    rewrite lookup_fmap, pool_after_lookup, lookup_empty.
    destruct (routed _ rs k) as [|al als]; [done|].
    simpl. by intros [= <-]. }
  split; [|split; [|split]]; intros tag al rs;
    unfold SplitTag_Int, SplitTag_UInt, SplitTag_Real, SplitTag_String;
    cbv zeta; [rewrite FirstAlignment_loop; apply Htotal..| |
               rewrite FirstAlignment_loop; apply Htotal].
  rewrite FirstAlignmentOrdered_loop. split; [by rewrite SplitLoopOrdered_pool|].
  intros k w Hw.
  assert (IsClosed w = true) as Hclosed.
  { rewrite SplitLoopOrdered_pool in Hw.
    by apply elem_of_CloseEach in Hw as (w0 & _ & ->). }
  assert (IsOpen w = can_open (Filename w) /\ Alignments w <> []) as [Hopen Hne].
  { clear Hclosed. revert k w Hw.
    apply (SplitLoopOrdered_writers_inv can_open m_header m_references
             float_lt _ _
             (fun _ w => IsOpen w = can_open (Filename w) /\ Alignments w <> [])).
    - intros al' k _ _. by split.
    - intros al' k w _ [Hopen _]. split; [done|].
      cbn. intros Happ. by apply app_eq_nil in Happ as [_ ?].
    - by intros k w.
    - by intros k w ?%elem_of_nil. }
  done.
Qed.

End Routing.

(** ** Splitting on a boolean property *)

Section BoolSplit.

Context {BamAlignment : Type}.
Variable property : BamAlignment -> bool.

Implicit Types (rs : list BamAlignment).
Implicit Types (m : gmap bool (BamWriter (BamAlignment := BamAlignment))).

Local Abbreviation key := (fun al => Some (property al)).

Lemma routed_bool rs b :
  routed key rs b = filter (fun al => property al = b) rs.
Proof.
  unfold routed. apply list_filter_iff. intros al. split; congruence.
Qed.

Lemma routed_bool_partition rs : routed key rs true ++ routed key rs false ≡ₚ rs.
Proof.
  induction rs as [|al rs IH]; [done|].
  destruct (property al) eqn:Hp.
  - rewrite routed_cons_eq, routed_cons_ne by congruence.
    simpl. by rewrite IH.
  - rewrite routed_cons_ne, routed_cons_eq by congruence.
    by rewrite <- Permutation_middle, IH.
Qed.

Lemma bool_map_size m : size m <= 2.
Proof.
  rewrite <- size_dom.
  assert (dom m ⊆ ({[true]} ∪ {[false]} : gset bool)) as Hsub.
  { intros [] _; set_solver. }
  apply subseteq_size in Hsub.
  rewrite size_union, !size_singleton in Hsub by set_solver. done.
Qed.

(** Two sinks at most, the records with the property in one and those
    without it in the other, together a rearrangement of the input. *)
Lemma bool_split_partition rs m :
  routes_exactly key rs m ->
  size m <= 2 /\
  sink m true = filter (fun al => property al = true) rs /\
  sink m false = filter (fun al => property al = false) rs /\
  sink m true ++ sink m false ≡ₚ rs /\
  (forall al, al ∈ sink m true -> al ∈ sink m false -> False).
Proof.
  intros Hr.
  pose proof (routes_exactly_sink key rs m true Hr) as Ht.
  pose proof (routes_exactly_sink key rs m false Hr) as Hf.
  split; [apply bool_map_size|].
  split; [by rewrite Ht, routed_bool|].
  split; [by rewrite Hf, routed_bool|].
  split; [rewrite Ht, Hf; apply routed_bool_partition|].
  intros al Hal1 Hal2.
  apply (routes_exactly_own_key key rs m true al Hr) in Hal1 as [_ H1].
  apply (routes_exactly_own_key key rs m false al Hr) in Hal2 as [_ H2].
  congruence.
Qed.

End BoolSplit.

Section BoolModes.

Context {BamAlignment Float : Type}.
Context `{!BamAlignmentAPI BamAlignment Float}.

Variable can_open : string -> bool.
Variable m_outputFilenameStub : string.
Variable m_header : string.
Variable m_references : RefVector.

(** C5.  In mapped mode and in paired mode there are at most two sinks;
    the sink of [true] received exactly the input records that have the
    property and the sink of [false] exactly those that lack it, so the
    two together are a rearrangement of the whole input (equal as
    multisets) and no record is in both. *)
Theorem mapped_and_paired_split_partition_the_input
  (rs : list BamAlignment) :
  let mapped := outputFiles (SplitMapped can_open m_outputFilenameStub m_header m_references rs) in
  let paired := outputFiles (SplitPaired can_open m_outputFilenameStub m_header m_references rs) in
  (size mapped <= 2 /\
   sink mapped true = filter (fun al => IsMapped al = true) rs /\
   sink mapped false = filter (fun al => IsMapped al = false) rs /\
   sink mapped true ++ sink mapped false ≡ₚ rs /\
   (forall al, al ∈ sink mapped true -> al ∈ sink mapped false -> False)) /\
  (size paired <= 2 /\
   sink paired true = filter (fun al => IsPaired al = true) rs /\
   sink paired false = filter (fun al => IsPaired al = false) rs /\
   sink paired true ++ sink paired false ≡ₚ rs /\
   (forall al, al ∈ sink paired true -> al ∈ sink paired false -> False)).
Proof.
  intros mapped paired.
  split; apply bool_split_partition; apply SplitLoop_total_routes.
Qed.

End BoolModes.

(** ** Reference mode *)

Section ReferenceMode.

Context {BamAlignment Float : Type}.
Context `{!BamAlignmentAPI BamAlignment Float}.

Variable can_open : string -> bool.
Variable m_outputFilenameStub : string.
Variable m_header : string.
Variable m_references : RefVector.

Implicit Types (al : BamAlignment) (rs : list BamAlignment).

Local Abbreviation Reference := (SplitReference can_open m_outputFilenameStub m_header m_references).
Local Abbreviation refkey := (fun al : BamAlignment => Some (RefID al)).

Lemma to_size_t_nonneg n : is_int32 n -> (0 <= n)%Z -> to_size_t n = n.
Proof.
  unfold is_int32, to_size_t. intros Hn Hpos.
  apply Z.mod_small. change (2 ^ 31)%Z with 2147483648%Z in Hn.
  change (2 ^ 64)%Z with 18446744073709551616%Z. lia.
Qed.

Lemma to_size_t_neg n : is_int32 n -> (n < 0)%Z -> to_size_t n = (n + 2 ^ 64)%Z.
Proof.
  unfold is_int32, to_size_t. intros Hn Hneg.
  change (2 ^ 31)%Z with 2147483648%Z in Hn.
  change (2 ^ 64)%Z with 18446744073709551616%Z.
  symmetry. apply (Z.mod_unique_pos _ _ (-1)); lia.
Qed.

Lemma vector_at_index {T : Type} (v : list T) n :
  is_int32 n -> (0 <= n < Z.of_nat (length v))%Z ->
  vector_at v n = nth_error v (Z.to_nat n) /\ is_Some (vector_at v n).
Proof.
  intros Hn Hrange. unfold vector_at. cbv zeta.
  rewrite to_size_t_nonneg by (done || lia).
  destruct (Z.ltb_spec n (Z.of_nat (length v))) as [_|?]; [|lia].
  split; [done|].
  destruct (nth_error v (Z.to_nat n)) eqn:Hnth; [by eexists|].
  apply nth_error_None in Hnth. lia.
Qed.

Lemma vector_at_out_of_range {T : Type} (v : list T) n :
  is_int32 n -> (Z.of_nat (length v) < 2 ^ 31)%Z ->
  (n < 0 \/ Z.of_nat (length v) <= n)%Z ->
  vector_at v n = None.
Proof.
  intros Hn Hsize Hout. unfold vector_at. cbv zeta.
  destruct (Z.ltb_spec (to_size_t n) (Z.of_nat (length v))) as [Hlt|?]; [|done].
  exfalso. destruct (Z.lt_ge_cases n 0) as [Hneg|Hpos].
  - rewrite to_size_t_neg in Hlt by done.
    unfold is_int32 in Hn. change (2 ^ 31)%Z with 2147483648%Z in *.
    change (2 ^ 64)%Z with 18446744073709551616%Z in Hlt. lia.
  - rewrite to_size_t_nonneg in Hlt by done. lia.
Qed.

(** No sink is ever made for a reference id that is on no record, however
    the run ends. *)
Lemma SplitReference_no_unobserved_sink rs k :
  k ∉ RefID <$> rs -> outputFiles (Reference rs) !! k = None.
Proof.
  intros Hk. apply eq_None_not_Some. intros Hsome.
  apply SplitLoop_keys in Hsome as [Hempty|(al & Hal & [= Hid])].
  - rewrite lookup_empty in Hempty. by destruct Hempty.
  - apply Hk. rewrite <- Hid. by apply list_elem_of_fmap_2.
Qed.

(** When every id is an index of the table, the sinks are exactly the ids
    met on the records. *)
Lemma SplitReference_sinks_valid rs k :
  Forall (fun al => is_Some (vector_at m_references (RefID al))) rs ->
  is_Some (outputFiles (Reference rs) !! k) <-> k ∈ RefID <$> rs.
Proof.
  intros Hall.
  destruct (SplitReference_routes can_open m_outputFilenameStub m_header
              m_references rs Hall) as [_ Hr].
  rewrite (routes_exactly_dom refkey rs _ k Hr), list_elem_of_fmap.
  split.
  - intros (al & Hal & [= Hid]). by exists al.
  - intros (al & Hid & Hal). exists al. by rewrite Hid.
Qed.

(** The map as it stands when a record with a fresh, out-of-table id is
    met: the loop stops there. *)
Lemma SplitReference_throws pre al post :
  Forall (fun al => is_Some (vector_at m_references (RefID al))) pre ->
  vector_at m_references (RefID al) = None ->
  Reference (pre ++ al :: post) =
  mkResult (Uncaught "std::out_of_range") post
    (pool_after refkey can_open m_header m_references
       (ReferenceFilename m_outputFilenameStub m_references) pre ∅) [].
Proof.
  intros Hpre Hal. unfold SplitReference.
  rewrite SplitLoop_app by by apply ReferenceFilename_defined.
  cbn [SplitLoop]. rewrite pool_after_lookup, lookup_empty.
  destruct (routed refkey pre (RefID al)) as [|al' als] eqn:Hrt.
  - unfold ReferenceFilename. by rewrite Hal.
  - exfalso.
    assert (al' ∈ routed refkey pre (RefID al)) as Hin by (rewrite Hrt; by left).
    apply routed_key in Hin as [Hin [= Hid]].
    rewrite Forall_forall in Hpre. specialize (Hpre al' Hin).
    rewrite Hid, Hal in Hpre. by destruct Hpre.
Qed.

(** C10.  Reference mode obtains the name for a new sink through the
    bounds-checked [m_references.at(currentRefId)].
    - For an id that is an index of the table, [0 <= id < size], the lookup
      yields the entry at that index and the file name is built from its
      [RefName]; in a run over such ids every sink carries such a name.
    - For an id outside the table, -1 among them, the lookup fails; a run
      that meets a record with such an id stops at that record with the
      [std::out_of_range] exception, and no sink for that id has been
      opened. *)
Theorem reference_lookup_is_bounds_checked :
  (forall id,
     is_int32 id -> (0 <= id < Z.of_nat (length m_references))%Z ->
     exists ref,
       nth_error m_references (Z.to_nat id) = Some ref /\
       vector_at m_references id = Some ref /\
       ReferenceFilename m_outputFilenameStub m_references id =
         Some (m_outputFilenameStub +:+ SPLIT_REFERENCE_TOKEN
               +:+ RefName ref +:+ ".bam")) /\
  (forall rs k w,
     Forall (fun al => is_Some (vector_at m_references (RefID al))) rs ->
     outputFiles (Reference rs) !! k = Some w ->
     exists ref,
       vector_at m_references k = Some ref /\
       Filename w = m_outputFilenameStub +:+ SPLIT_REFERENCE_TOKEN
                    +:+ RefName ref +:+ ".bam") /\
  (forall id,
     is_int32 id -> (Z.of_nat (length m_references) < 2 ^ 31)%Z ->
     (id < 0 \/ Z.of_nat (length m_references) <= id)%Z ->
     vector_at m_references id = None) /\
  (forall pre al post,
     Forall (fun al => is_Some (vector_at m_references (RefID al))) pre ->
     vector_at m_references (RefID al) = None ->
     let r := Reference (pre ++ al :: post) in
     outcome r = Uncaught "std::out_of_range" /\
     unread r = post /\
     outputFiles r !! RefID al = None).
Proof.
  split; [|split; [|split]].
  - intros id Hid Hrange.
    destruct (vector_at_index m_references id Hid Hrange) as [Heq [ref Href]].
    exists ref. unfold ReferenceFilename. rewrite Href.
    split; [by rewrite <- Heq|done].
  - intros rs k w Hall Hw.
    assert (is_Some (outputFiles (Reference rs) !! k)) as Hk by by eexists.
    apply SplitReference_sinks_valid in Hk; [|done].
    apply list_elem_of_fmap in Hk as (al & -> & Hal).
    rewrite Forall_forall in Hall. destruct (Hall al Hal) as [ref Href].
    exists ref. split; [done|].
    revert Hw. unfold SplitReference.
    rewrite SplitLoop_complete
      by (apply ReferenceFilename_defined; by apply Forall_forall).
    cbn [outputFiles]. unfold CloseAll.
    rewrite lookup_fmap, pool_after_lookup, lookup_empty.
    destruct (routed _ rs (RefID al)) as [|al' als]; [done|].
    simpl. intros [= <-]. simpl.
    unfold ReferenceFilename. by rewrite Href.
  - intros id. apply vector_at_out_of_range.
  - intros pre al post Hpre Hal r. subst r.
    rewrite SplitReference_throws by done. cbn.
    split; [done|]. split; [done|].
    rewrite pool_after_lookup, lookup_empty.
    destruct (routed refkey pre (RefID al)) as [|al' als] eqn:Hrt; [done|].
    exfalso.
    assert (al' ∈ routed refkey pre (RefID al)) as Hin by (rewrite Hrt; by left).
    apply routed_key in Hin as [Hin [= Hid]].
    rewrite Forall_forall in Hpre. specialize (Hpre al' Hin).
    rewrite Hid, Hal in Hpre. by destruct Hpre.
Qed.

End ReferenceMode.

(** ** Tag mode, from the driver down *)

Section TagMode.

Context {BamAlignment Float : Type}.
Context `{!BamAlignmentAPI BamAlignment Float}.

Variable can_open : string -> bool.
Variable bam_files : string -> option (BamFile BamAlignment).
Variable currentTime : string.

Implicit Types (al : BamAlignment) (rs : list BamAlignment).

Local Abbreviation run := (Run can_open bam_files currentTime).
Local Abbreviation exit_status := (SplitTool_Run can_open bam_files currentTime).

(** With tag mode selected and the input opened, the driver runs
    [SplitTag] on the records of the file. *)
Lemma Run_tag_mode m_settings file :
  selects_tag_mode m_settings ->
  bam_files (InputFilename m_settings) = Some file ->
  run m_settings =
  SplitTag can_open (DetermineOutputFilenameStub m_settings currentTime)
    (HeaderText file) (ReferenceData file) (TagToSplit m_settings)
    (AlignmentData file).
Proof.
  intros (Hm & Hp & Hr & Ht) Hfile. unfold Run.
  by rewrite Hfile, Hm, Hp, Hr, Ht.
Qed.

(** A run over records none of which carries the tag. *)
Lemma SplitTag_tag_absent stub header refs tag rs :
  Forall (lacks_tag tag) rs ->
  SplitTag can_open stub header refs tag rs =
  mkResult (Returned true) [] NoFiles [].
Proof.
  intros Hall. rewrite <- (app_nil_r rs). by rewrite SplitTag_skip.
Qed.

(** C3.  In a tag-mode run whose first record carrying the tag has a
    storage class outside the ten recognized codes, reading stops at that
    record (the records behind it stay unread), the error channel receives
    the message naming the type code, no sink has been opened, the run
    returns failure and the exit status is 1.  The records in front of it,
    which merely lack the tag, are passed over without any message. *)
Theorem unknown_storage_class_aborts_tag_mode
  m_settings file (pre : list BamAlignment) al post tagType :
  selects_tag_mode m_settings ->
  bam_files (InputFilename m_settings) = Some file ->
  AlignmentData file = (pre ++ al :: post)%list ->
  Forall (lacks_tag (TagToSplit m_settings)) pre ->
  GetTagType al (TagToSplit m_settings) = Some tagType ->
  family_of tagType = None ->
  run m_settings =
    mkResult (Returned false) post NoFiles
      ["ERROR: Unknown tag storage class encountered: ["
       +:+ String tagType "]" +:+ endl] /\
  writers (outputFiles (run m_settings)) = [] /\
  exit_status m_settings = Exit 1.
Proof.
  intros Hmode Hfile Hdata Hpre Htype Hfam.
  assert (run m_settings =
          mkResult (Returned false) post NoFiles
            ["ERROR: Unknown tag storage class encountered: ["
             +:+ String tagType "]" +:+ endl]) as Hrun.
  { rewrite (Run_tag_mode m_settings file Hmode Hfile), Hdata.
    rewrite SplitTag_skip by done. cbn [SplitTag]. by rewrite Htype, Hfam. }
  unfold SplitTool_Run. by rewrite Hrun.
Qed.

(** C7.  A tag-mode run over an input in which no record carries the tag
    reads the whole input, writes nothing to the error channel, creates no
    sink, returns success, and the exit status is 0. *)
Theorem tag_absent_everywhere_is_success m_settings file :
  selects_tag_mode m_settings ->
  bam_files (InputFilename m_settings) = Some file ->
  Forall (lacks_tag (TagToSplit m_settings)) (AlignmentData file) ->
  run m_settings = mkResult (Returned true) [] NoFiles [] /\
  writers (outputFiles (run m_settings)) = [] /\
  exit_status m_settings = Exit 0.
Proof.
  intros Hmode Hfile Hall.
  assert (run m_settings = mkResult (Returned true) [] NoFiles []) as Hrun.
  { rewrite (Run_tag_mode m_settings file Hmode Hfile).
    by apply SplitTag_tag_absent. }
  unfold SplitTool_Run. by rewrite Hrun.
Qed.

End TagMode.

(** ** The file name stub, as the driver computes it *)


(** C9 (what the code does at the input it always receives).  [ctime]
    ends its text with a newline.  [GetTimestampString] turns the blanks of
    the text into underscores and nothing else, so the newline stays: the
    stub has no blank left but does contain a white-space character. *)
Theorem timestamp_stub_keeps_the_newline :
  (forall text,
     GetTimestampString (text +:+ endl) =
     StdString.subst_char " "%char "_"%char text +:+ endl) /\
  (forall text, has_whitespace (GetTimestampString (text +:+ endl)) = true) /\
  (forall text, StdString.occurs " "%char (GetTimestampString text) = false) /\
  GetTimestampString ("Fri Oct 30 14:06:00 2026" +:+ endl) =
    "Fri_Oct_30_14:06:00_2026" +:+ endl.
Proof.
  assert (forall text,
            GetTimestampString (text +:+ endl) =
            StdString.subst_char " "%char "_"%char text +:+ endl) as Heq.
  { intros text. by rewrite GetTimestampString_subst, subst_char_app. }
  repeat apply conj.
  - exact Heq.
  - intros text. rewrite Heq. apply has_whitespace_app_endl.
  - intros text. rewrite GetTimestampString_subst. apply occurs_subst_char.
  - reflexivity.
Qed.

(** ** The statements at concrete inputs *)

Import Sample.

(** C1, counterexample.  Tag mode, input [[rg_array; rg_int]]: the second
    record carries the tag as a signed integer, so its key is determinable,
    yet the run stops at the first record and no sink exists at all.
    Reference mode, input [[mapped_a; unmapped_b; mapped_c]]: the keys 0,
    -1, 0 are all determinable, yet the run ends at the second record, and
    neither it nor the third is in any sink. *)
Lemma determinable_records_left_unwritten :
  let r := SplitTag always "in" "@HD" [chr1] "RG" [rg_array; rg_int] in
  let r' := SplitReference always "in" "@HD" [chr1]
              [mapped_a; unmapped_b; mapped_c] in
  (GetTagType rg_int "RG" = Some "i"%char /\
   GetTag_int32 rg_int "RG" = Some 5%Z /\
   outcome r = Returned false /\
   unread r = [rg_int] /\
   writers (outputFiles r) = []) /\
  (outcome r' = Uncaught "std::out_of_range" /\
   unread r' = [mapped_c] /\
   sink (outputFiles r') 0%Z = [mapped_a] /\
   sink (outputFiles r') (-1)%Z = []).
Proof. vm_compute. repeat split. Qed.

(** C2, counterexample.  The first record carrying RG holds the text
    "lib1", the next one holds RG as a signed integer: the run returns
    success with exit status 0 and an empty error channel. *)
Lemma text_then_number_run_succeeds :
  let files := only_in_bam [rg_text; rg_int] in
  GetTagType rg_text "RG" = Some "Z"%char /\
  GetTagType rg_int "RG" = Some "i"%char /\
  outcome (Run always files ctime_text tag_settings) = Returned true /\
  cerr (Run always files ctime_text tag_settings) = [] /\
  SplitTool_Run always files ctime_text tag_settings = Exit 0.
Proof. vm_compute. repeat split. Qed.

(** C4, counterexample.  No output file can be created, yet the mapped-mode
    run over two records returns success with exit status 0; its two
    writers were never open. *)
Lemma failed_open_run_succeeds :
  let files := only_in_bam [mapped_a; unmapped_b] in
  let r := Run never files ctime_text mapped_settings in
  outcome r = Returned true /\
  IsOpen <$> writers (outputFiles r) = [false; false] /\
  SplitTool_Run never files ctime_text mapped_settings = Exit 0.
Proof. vm_compute. repeat split. Qed.

(** C6 (the code at the failing input).  Reference mode over the table
    [[chr1]] and the records [[mapped_a; unmapped_b; mapped_c]]: the ids
    met are 0 and -1.  The run ends with the [std::out_of_range] exception
    at the unmapped record; the process is terminated, the third record
    is never read, there is no sink for -1, and the writer of 0 has not
    been closed. *)
Theorem reference_mode_dies_on_unmapped_record :
  let files := only_in_bam [mapped_a; unmapped_b; mapped_c] in
  let r := SplitReference always "in" "@HD" [chr1]
             [mapped_a; unmapped_b; mapped_c] in
  RefID <$> [mapped_a; unmapped_b; mapped_c] = [0; -1; 0]%Z /\
  outcome r = Uncaught "std::out_of_range" /\
  unread r = [mapped_c] /\
  outputFiles r !! (-1)%Z = None /\
  (IsClosed <$> outputFiles r !! 0%Z) = Some false /\
  SplitTool_Run always files ctime_text reference_settings = Terminated.
Proof. vm_compute. repeat split. Qed.

(** The sample floats, integers compared as integers, are ordered. *)
Lemma Z_ltb_strict_weak (keys : list Z) : strict_weak_on Z.ltb keys.
Proof.
  unfold strict_weak_on, StdMap.equivalent. repeat split.
  - intros a _. apply Z.ltb_irrefl.
  - intros a b c _ _ _. rewrite !Z.ltb_lt. lia.
  - intros a b c _ _ _.
    rewrite !andb_true_iff, !negb_true_iff, !Z.ltb_ge. lia.
Defined.

(** C1 at concrete inputs: reference mode over records whose ids are in
    the table, and tag mode behind a record without the tag, in the text
    family and in the float family. *)
Lemma split_routes_sample :
  routes_exactly (fun al => Some (RefID al)) [mapped_a; mapped_c]
    (outputFiles (SplitReference always "in" "@HD" [chr1] [mapped_a; mapped_c])) /\
  tag_routes "RG" Text [rg_text; rg_int]
    (outputFiles (SplitTag always "in" "@HD" [chr1] "RG"
                    ([mapped_a] ++ rg_text :: [rg_int]))) /\
  tag_routes "XF" Real [xf_one; xf_two; xf_one]
    (outputFiles (SplitTag always "in" "@HD" [chr1] "XF"
                    ([mapped_a] ++ xf_one :: [xf_two; xf_one]))).
Proof.
  pose proof (split_routes_each_record_once_in_order always "in" "@HD" [chr1])
    as (_ & _ & Href & Htag).
  split; [|split].
  - apply Href. repeat constructor; by eexists.
  - apply (Htag "RG" [mapped_a] rg_text [rg_int] "Z"%char Text).
    + repeat constructor.
    + reflexivity.
    + reflexivity.
    + discriminate.
  - apply (Htag "XF" [mapped_a] xf_one [xf_two; xf_one] "f"%char Real).
    + repeat constructor.
    + reflexivity.
    + reflexivity.
    + intros _. apply Z_ltb_strict_weak.
Defined.

(** C2 at a concrete input: text first, a number later. *)
Lemma text_path_sample :
  let r := SplitTag always "in" "@HD" [chr1] "RG"
             ([mapped_a] ++ rg_text :: [rg_int]) in
  outcome r = Returned true /\ unread r = [] /\ cerr r = [] /\
  (exists m, outputFiles r = StringFiles m /\
             routes_exactly (fun al => GetTag_string al "RG") [rg_text; rg_int] m) /\
  Forall (fun w => IsClosed w = true) (writers (outputFiles r)).
Proof.
  apply (text_path_never_rejects_a_later_record always "in" "@HD" [chr1]
           "RG" [mapped_a] rg_text [rg_int] "Z"%char).
  - repeat constructor.
  - reflexivity.
  - reflexivity.
Defined.

(** C3 at a concrete input: the first record carrying RG holds an array. *)
Lemma unknown_storage_class_sample :
  let files := only_in_bam [mapped_a; rg_array; rg_int] in
  Run always files ctime_text tag_settings =
    mkResult (Returned false) [rg_int] NoFiles
      ["ERROR: Unknown tag storage class encountered: [B]" +:+ endl] /\
  writers (outputFiles (Run always files ctime_text tag_settings)) = [] /\
  SplitTool_Run always files ctime_text tag_settings = Exit 1.
Proof.
  apply (unknown_storage_class_aborts_tag_mode always
           (only_in_bam [mapped_a; rg_array; rg_int]) ctime_text tag_settings
           (in_bam [mapped_a; rg_array; rg_int]) [mapped_a] rg_array [rg_int]
           "B"%char).
  - repeat split.
  - reflexivity.
  - reflexivity.
  - repeat constructor.
  - reflexivity.
  - reflexivity.
Defined.

(** C4 at a concrete input: reference mode, no file can be created. *)
Lemma open_failure_sample :
  let r := SplitReference never "in" "@HD" [chr1] [mapped_a; mapped_c] in
  outcome r = Returned true /\
  forall k w, outputFiles r !! k = Some w ->
    IsOpen w = never (Filename w) /\ IsClosed w = true /\
    Alignments w = routed (fun al => Some (RefID al)) [mapped_a; mapped_c] k.
Proof.
  pose proof (open_failure_is_not_detected never "in" "@HD" [chr1])
    as (_ & _ & Href & _).
  apply Href. repeat constructor; by eexists.
Defined.

(** C5 at a concrete input. *)
Lemma mapped_partition_sample :
  let mapped := outputFiles (SplitMapped always "in" "@HD" [chr1]
                               [mapped_a; unmapped_b; mapped_c]) in
  size mapped <= 2 /\
  sink mapped true ++ sink mapped false ≡ₚ [mapped_a; unmapped_b; mapped_c] /\
  (mapped_a ∈ sink mapped true -> mapped_a ∈ sink mapped false -> False).
Proof.
  pose proof (mapped_and_paired_split_partition_the_input always "in" "@HD"
                [chr1] [mapped_a; unmapped_b; mapped_c])
    as [(Hsize & _ & _ & Hperm & Hdisj) _].
  split; [exact Hsize|]. split; [exact Hperm|]. apply Hdisj.
Defined.

(** C7 at a concrete input: no record carries RG. *)
Lemma tag_absent_sample :
  let files := only_in_bam [mapped_a; unmapped_b] in
  Run always files ctime_text tag_settings = mkResult (Returned true) [] NoFiles [] /\
  writers (outputFiles (Run always files ctime_text tag_settings)) = [] /\
  SplitTool_Run always files ctime_text tag_settings = Exit 0.
Proof.
  apply (tag_absent_everywhere_is_success always
           (only_in_bam [mapped_a; unmapped_b]) ctime_text tag_settings
           (in_bam [mapped_a; unmapped_b])).
  - repeat split.
  - reflexivity.
  - repeat constructor.
Defined.


(** C10 at a concrete table: id 0 is found, id -1 is not, and a run that
    meets the unmapped record stops there. *)
Lemma reference_lookup_sample :
  (exists ref,
     nth_error [chr1] (Z.to_nat 0) = Some ref /\
     vector_at [chr1] 0 = Some ref /\
     ReferenceFilename "in" [chr1] 0 =
       Some ("in" +:+ SPLIT_REFERENCE_TOKEN +:+ RefName ref +:+ ".bam")) /\
  vector_at [chr1] (-1) = None /\
  (let r := SplitReference always "in" "@HD" [chr1]
              ([mapped_a] ++ unmapped_b :: [mapped_c]) in
   outcome r = Uncaught "std::out_of_range" /\
   unread r = [mapped_c] /\
   outputFiles r !! RefID unmapped_b = None).
Proof.
  pose proof (reference_lookup_is_bounds_checked always "in" "@HD" [chr1])
    as (Hin & _ & Hout & Hrun).
  split; [|split].
  - apply Hin; [unfold is_int32|simpl]; lia.
  - apply Hout; [unfold is_int32|simpl|]; lia.
  - apply (Hrun [mapped_a] unmapped_b [mapped_c]).
    + repeat constructor; by eexists.
    + reflexivity.
Defined.

(** * Further properties of the tool *)

(** ** The two string helpers *)

Section StringHelpers.

Import StdString.

Lemma string_app_nil (t : string) : EmptyString +:+ t = t.
Proof. reflexivity. Qed.

Lemma string_app_cons a (s t : string) : String a s +:+ t = String a (s +:+ t).
Proof. reflexivity. Qed.

Lemma string_app_assoc (s t u : string) : (s +:+ t) +:+ u = s +:+ (t +:+ u).
Proof.
  induction s as [|a s IH]; [done|].
  rewrite !string_app_cons. by rewrite IH.
Qed.

Lemma string_length_app (s t : string) :
  String.length (s +:+ t) = String.length s + String.length t.
Proof.
  induction s as [|a s IH]; [done|].
  rewrite string_app_cons. simpl. by rewrite IH.
Qed.

Lemma string_app_inj_r (s t u : string) : s +:+ u = t +:+ u -> s = t.
Proof.
  revert t. induction s as [|a s IH]; intros [|b t] Heq; [done| | |].
  - apply (f_equal String.length) in Heq.
    rewrite string_app_nil, string_app_cons in Heq.
    simpl in Heq. rewrite string_length_app in Heq. lia.
  - apply (f_equal String.length) in Heq.
    rewrite string_app_nil, string_app_cons in Heq.
    simpl in Heq. rewrite string_length_app in Heq. lia.
  - rewrite !string_app_cons in Heq. injection Heq as -> Heq.
    by rewrite (IH t).
Qed.

Lemma subst_char_length old new s :
  String.length (subst_char old new s) = String.length s.
Proof. induction s as [|a s IH]; simpl; [done|]. by rewrite IH. Qed.

Lemma subst_char_get old new s : forall i,
  String.get i (subst_char old new s) =
  (fun c => if Ascii.eqb c old then new else c) <$> String.get i s.
Proof.
  induction s as [|a s IH]; intros [|i]; simpl; done.
Qed.

Lemma subst_char_fixed old new s :
  occurs old s = false -> subst_char old new s = s.
Proof.
  induction s as [|a s IH]; simpl; [done|].
  intros [Ha Hs]%orb_false_elim. by rewrite Ha, IH.
Qed.

(** The last occurrence of a character splits the string. *)
Lemma occurs_last c s :
  occurs c s = true ->
  exists base ext, s = base +:+ String c ext /\ occurs c ext = false.
Proof.
  induction s as [|a s IH]; simpl; [done|].
  destruct (occurs c s) eqn:Hs.
  - intros _. destruct IH as (base & ext & -> & Hext); [done|].
    by exists (String a base), ext.
  - rewrite orb_false_r. intros Ha%Ascii.eqb_eq. subst a.
    by exists EmptyString, s.
Qed.

(** X1.  [GetTimestampString] keeps the length of the text, changes each
    blank into an underscore and leaves every other character where it
    is; applied to its own result it changes nothing. *)
Theorem timestamp_blanks_become_underscores (currentTime : string) :
  String.length (GetTimestampString currentTime) = String.length currentTime /\
  (forall i,
     String.get i (GetTimestampString currentTime) =
     (fun c => if Ascii.eqb c " "%char then "_"%char else c)
       <$> String.get i currentTime) /\
  GetTimestampString (GetTimestampString currentTime) =
    GetTimestampString currentTime.
Proof.
  rewrite !GetTimestampString_subst. repeat apply conj.
  - apply subst_char_length.
  - apply subst_char_get.
  - apply subst_char_fixed, occurs_subst_char.
Qed.

(** X2.  [RemoveFilenameExtension] either finds no dot and returns the
    name unchanged, or removes exactly one suffix: the last dot of the
    name and the dot-free text behind it.  So a name with several dots
    loses only its last extension, and the result is always a prefix of
    the name. *)
Theorem extension_removal_cuts_one_dotless_suffix (filename : string) :
  (occurs "."%char filename = false /\
   RemoveFilenameExtension filename = filename) \/
  (exists ext,
     occurs "."%char ext = false /\
     filename = RemoveFilenameExtension filename +:+ String "."%char ext).
Proof.
  destruct (occurs "."%char filename) eqn:Hdot.
  - right. destruct (occurs_last _ _ Hdot) as (base & ext & -> & Hext).
    exists ext. by rewrite RemoveFilenameExtension_last_dot.
  - left. by rewrite RemoveFilenameExtension_no_dot.
Qed.

End StringHelpers.

(** ** What every run keeps, however it ends *)

Section LoopInvariants.

Context {BamAlignment Float : Type}.
Context `{!BamAlignmentAPI BamAlignment Float}.
Context {K : Type} `{Countable K}.

Variable can_open : string -> bool.
Variable m_header : string.
Variable m_references : RefVector.
Variable key : BamAlignment -> option K.
Variable outputFilename : K -> option string.

Implicit Types (al : BamAlignment) (rs : list BamAlignment).
Implicit Types (w : BamWriter (BamAlignment := BamAlignment)).
Implicit Types (m : gmap K (BamWriter (BamAlignment := BamAlignment))).

Local Abbreviation loop := (SplitLoop can_open m_header m_references key outputFilename).

(** A property of writers that holds once a writer has been opened and
    given its first record, and that further records and [Close] keep,
    holds of every writer the loop leaves behind. *)
Lemma SplitLoop_writers_inv (J : K -> BamWriter -> Prop) rs : forall m,
  (forall al k name, al ∈ rs -> key al = Some k -> outputFilename k = Some name ->
     J k (SaveAlignment al (Open can_open name m_header m_references new_BamWriter))) ->
  (forall al k w, al ∈ rs -> J k w -> J k (SaveAlignment al w)) ->
  (forall k w, J k w -> J k (Close w)) ->
  (forall k w, m !! k = Some w -> J k w) ->
  forall k w, outputFiles (loop rs m) !! k = Some w -> J k w.
Proof.
  induction rs as [|al rs IH]; intros m Hfirst Hnext Hclose Hm k w.
  - simpl. unfold CloseAll. rewrite lookup_fmap.
    destruct (m !! k) as [w'|] eqn:Hk; [|done].
    simpl. intros [= <-]. by apply Hclose, Hm.
  - assert (forall m', (forall k w, m' !! k = Some w -> J k w) ->
              outputFiles (loop rs m') !! k = Some w -> J k w) as Hrest.
    { intros m' Hm'. apply IH; [| |done|done].
      - intros al' k' name Hin. apply Hfirst. by right.
      - intros al' k' w' Hin. apply Hnext. by right. }
    cbn [SplitLoop]. destruct (key al) as [v|] eqn:Hkey; [|by apply Hrest].
    destruct (m !! v) as [w0|] eqn:Hv.
    + apply Hrest. intros k' w'. destruct (decide (v = k')) as [<-|Hne].
      * rewrite lookup_insert_eq. intros [= <-].
        apply Hnext; [by left|]. by apply Hm.
      * rewrite lookup_insert_ne by done. apply Hm.
    + destruct (outputFilename v) as [name|] eqn:Hname; [|apply Hm].
      apply Hrest. intros k' w'. destruct (decide (v = k')) as [<-|Hne].
      * rewrite lookup_insert_eq. intros [= <-]. apply Hfirst; [by left|done..].
      * rewrite lookup_insert_ne by done. apply Hm.
Qed.

(** The loop ends in one of two ways: it reaches the end of the input,
    closes every writer and returns [true]; or a file name could not be
    built for some record and the exception leaves the function. *)
Lemma SplitLoop_outcome rs : forall m,
  (outcome (loop rs m) = Returned true /\ unread (loop rs m) = [] /\
   cerr (loop rs m) = [] /\
   forall k w, outputFiles (loop rs m) !! k = Some w -> IsClosed w = true) \/
  (outcome (loop rs m) = Uncaught "std::out_of_range" /\
   cerr (loop rs m) = [] /\
   exists al k, al ∈ rs /\ key al = Some k /\ outputFilename k = None).
Proof.
  induction rs as [|al rs IH]; intros m.
  - left. simpl. repeat split. apply CloseAll_closed.
  - assert (forall m',
      (outcome (loop rs m') = Returned true /\ unread (loop rs m') = [] /\
       cerr (loop rs m') = [] /\
       forall k w, outputFiles (loop rs m') !! k = Some w -> IsClosed w = true) \/
      (outcome (loop rs m') = Uncaught "std::out_of_range" /\
       cerr (loop rs m') = [] /\
       exists al' k, al' ∈ al :: rs /\ key al' = Some k /\ outputFilename k = None))
      as Hrest.
    { intros m'. destruct (IH m') as [?|(? & ? & al' & k & Hin & ? & ?)]; [by left|].
      right. split; [done|]. split; [done|]. exists al', k. split; [by right|done]. }
    cbn [SplitLoop]. destruct (key al) as [v|] eqn:Hkey; [|apply Hrest].
    destruct (m !! v); [apply Hrest|].
    destruct (outputFilename v) eqn:Hname; [apply Hrest|].
    right. simpl. split; [done|]. split; [done|].
    exists al, v. split; [by left|done].
Qed.

Lemma writers_Forall (J : BamWriter -> Prop) m :
  (forall k w, m !! k = Some w -> J w) -> Forall J (map_to_list m).*2.
Proof.
  intros Hm. apply Forall_forall. intros w Hw.
  apply list_elem_of_fmap in Hw as [[k w'] [-> Hw]].
  apply elem_of_map_to_list in Hw. by eapply Hm.
Qed.

End LoopInvariants.

(** ** The driver, mode by mode *)

Section RunFacts.

Context {BamAlignment Float : Type}.
Context `{!BamAlignmentAPI BamAlignment Float}.

Variable can_open : string -> bool.
Variable bam_files : string -> option (BamFile BamAlignment).
Variable currentTime : string.

Implicit Types (al : BamAlignment) (rs : list BamAlignment).
Implicit Types (w : BamWriter (BamAlignment := BamAlignment)).

Local Abbreviation run := (Run can_open bam_files currentTime).
Local Abbreviation exit_status := (SplitTool_Run can_open bam_files currentTime).
Local Abbreviation stub_of s := (DetermineOutputFilenameStub s currentTime).

Lemma TagFilename_shape stub tag text :
  TagFilename stub tag text =
  stub +:+ (".TAG_" +:+ tag +:+ "_" +:+ text) +:+ ".bam".
Proof.
  unfold TagFilename. f_equal.
  by rewrite (string_app_assoc ".TAG_"), (string_app_assoc tag),
    (string_app_assoc "_").
Qed.

(** Writers left by [SplitTag]: see [SplitLoop_writers_inv]. *)
Lemma SplitTag_writers_inv (J : BamWriter -> Prop) stub header refs tag rs :
  (forall al mid, al ∈ rs ->
     J (SaveAlignment al
          (Open can_open (stub +:+ mid +:+ ".bam") header refs new_BamWriter))) ->
  (forall al w, al ∈ rs -> J w -> J (SaveAlignment al w)) ->
  (forall w, J w -> J (Close w)) ->
  Forall J (writers (outputFiles (SplitTag can_open stub header refs tag rs))).
Proof.
  intros Hfirst Hnext Hclose.
  induction rs as [|al rs IH]; [by constructor|].
  cbn [SplitTag]. destruct (GetTagType al tag) as [tagType|].
  - assert (forall `{Countable K} (get : BamAlignment -> option K) text k w,
              outputFiles
                (SplitLoop can_open header refs get
                   (fun v => Some (TagFilename stub tag (text v)))
                   (al :: rs) ∅) !! k = Some w -> J w) as Hloop.
    { intros K ? ? get text.
      apply (SplitLoop_writers_inv can_open header refs get _ (fun _ => J));
        [|intros ? ? ? ?; by apply Hnext|intros ? ?; by apply Hclose
         |by intros ? ?; rewrite lookup_empty].
      intros al' k name Hin _ [= <-]. rewrite TagFilename_shape.
      by apply Hfirst. }
    destruct (family_of tagType) as [[]|]; [| | | |by constructor];
      cbn [with_files outputFiles writers];
      [apply writers_Forall; unfold SplitTag_Int, SplitTag_UInt, SplitTag_String;
       cbv zeta; rewrite FirstAlignment_loop; apply Hloop..| |
       apply writers_Forall; unfold SplitTag_Int, SplitTag_UInt, SplitTag_String;
       cbv zeta; rewrite FirstAlignment_loop; apply Hloop].
    unfold SplitTag_Real. cbv zeta. rewrite FirstAlignmentOrdered_loop.
    apply Forall_forall. intros w Hw.
    apply list_elem_of_fmap in Hw as [[k w'] [-> Hw]]. revert k w' Hw.
    apply (SplitLoopOrdered_writers_inv can_open header refs float_lt _ _
             (fun _ => J)).
    + intros al' k Hin _. rewrite TagFilename_shape. by apply Hfirst.
    + intros al' k w Hin. by apply Hnext.
    + intros k w. by apply Hclose.
    + by intros k w ?%elem_of_nil.
  - apply IH.
    + intros al' mid Hin. apply Hfirst. by right.
    + intros al' w Hin. apply Hnext. by right.
Qed.

(** Writers left by a run: a property that holds of a writer opened under
    a name [stub ++ mid ++ ".bam"] with the header and reference table of
    the input and given a first record of the input, and that further
    records of the input and [Close] keep, holds of every writer of the
    run. *)
Lemma Run_writers_inv (J : BamWriter -> Prop) m_settings file :
  bam_files (InputFilename m_settings) = Some file ->
  (forall al mid, al ∈ AlignmentData file ->
     J (SaveAlignment al
          (Open can_open (stub_of m_settings +:+ mid +:+ ".bam")
             (HeaderText file) (ReferenceData file) new_BamWriter))) ->
  (forall al w, al ∈ AlignmentData file -> J w -> J (SaveAlignment al w)) ->
  (forall w, J w -> J (Close w)) ->
  Forall J (writers (outputFiles (run m_settings))).
Proof.
  intros Hfile Hfirst Hnext Hclose. unfold Run. rewrite Hfile.
  assert (forall `{Countable K} (get : BamAlignment -> option K) name k w,
            (forall v text, name v = Some text ->
               exists mid, text = stub_of m_settings +:+ mid +:+ ".bam") ->
            outputFiles
              (SplitLoop can_open (HeaderText file) (ReferenceData file) get
                 name (AlignmentData file) ∅) !! k = Some w -> J w) as Hloop.
  { intros K ? ? get name k w Hname.
    apply (SplitLoop_writers_inv can_open _ _ get _ (fun _ => J));
      [|intros ? ? ? ?; by apply Hnext|intros ? ?; by apply Hclose
       |by intros ? ?; rewrite lookup_empty].
    intros al' k' text Hin _ Htext.
    destruct (Hname _ _ Htext) as [mid ->]. by apply Hfirst. }
  destruct (IsSplittingMapped m_settings).
  { cbn. apply writers_Forall. intros k w. apply Hloop.
    intros v text [= <-]. by eexists. }
  destruct (IsSplittingPaired m_settings).
  { cbn. apply writers_Forall. intros k w. apply Hloop.
    intros v text [= <-]. by eexists. }
  destruct (IsSplittingReference m_settings).
  { cbn. apply writers_Forall. intros k w. apply Hloop.
    intros v text. unfold ReferenceFilename.
    destruct (vector_at _ v) as [ref|]; [|done]. intros [= <-].
    exists (SPLIT_REFERENCE_TOKEN +:+ RefName ref).
    by rewrite (string_app_assoc SPLIT_REFERENCE_TOKEN). }
  destruct (IsSplittingTag m_settings); [|by constructor].
  by apply SplitTag_writers_inv.
Qed.

(** How [SplitTag] can end. *)
Lemma SplitTag_outcome stub header refs tag rs :
  let r := SplitTag can_open stub header refs tag rs in
  (outcome r = Returned true /\ unread r = [] /\ cerr r = [] /\
   Forall (fun w => IsClosed w = true) (writers (outputFiles r))) \/
  (outcome r = Returned false /\
   exists al tagType,
     al ∈ rs /\ GetTagType al tag = Some tagType /\ family_of tagType = None).
Proof.
  induction rs as [|al rs IH]; [left; repeat split; constructor|].
  cbv zeta. destruct (GetTagType al tag) as [tagType|] eqn:Htype.
  - destruct (family_of tagType) as [family|] eqn:Hfam.
    + left.
      by destruct (SplitTag_dispatch_run can_open stub header refs tag al rs
                     tagType family Htype Hfam) as (? & ? & ? & ?).
    + right. cbn [SplitTag]. rewrite Htype, Hfam. split; [done|].
      exists al, tagType. split; [by left|done].
  - cbn [SplitTag]. rewrite Htype.
    destruct IH as [?|(? & al' & t & Hin & ? & ?)]; [by left|].
    right. split; [done|]. exists al', t. split; [by right|done].
Qed.

End RunFacts.

Section RunProperties.

Context {BamAlignment Float : Type}.
Context `{!BamAlignmentAPI BamAlignment Float}.

Variable can_open : string -> bool.
Variable bam_files : string -> option (BamFile BamAlignment).
Variable currentTime : string.

Implicit Types (al : BamAlignment) (rs : list BamAlignment).
Implicit Types (w : BamWriter (BamAlignment := BamAlignment)).

Local Abbreviation run := (Run can_open bam_files currentTime).
Local Abbreviation exit_status := (SplitTool_Run can_open bam_files currentTime).
Local Abbreviation stub_of s := (DetermineOutputFilenameStub s currentTime).

(** X3.  When the input file cannot be opened the run fails before the
    mode options are looked at: whatever they are, the error channel gets
    the message naming the file, nothing is read, no sink is created and
    the exit status is 1. *)
Theorem unreadable_input_fails_whatever_the_mode m_settings :
  bam_files (InputFilename m_settings) = None ->
  run m_settings =
    mkResult (Returned false) [] NoFiles
      ["ERROR: SplitTool could not open BAM file: "
       +:+ InputFilename m_settings +:+ endl] /\
  exit_status m_settings = Exit 1.
Proof.
  intros Hfile. unfold SplitTool_Run, Run. by rewrite Hfile.
Qed.

(** X4.  With no mode option the input file is opened all the same, but
    not one record is read: the run fails with the usage message, no sink
    is created and the exit status is 1. *)
Theorem no_mode_option_reads_no_record m_settings file :
  bam_files (InputFilename m_settings) = Some file ->
  IsSplittingMapped m_settings = false ->
  IsSplittingPaired m_settings = false ->
  IsSplittingReference m_settings = false ->
  IsSplittingTag m_settings = false ->
  run m_settings =
    mkResult (Returned false) (AlignmentData file) NoFiles
      ["No property given to split on... Please use -mapped, -paired, -reference, or -tag TAG to specifiy split behavior."
       +:+ endl] /\
  exit_status m_settings = Exit 1.
Proof.
  intros Hfile Hm Hp Hr Ht. unfold SplitTool_Run, Run.
  by rewrite Hfile, Hm, Hp, Hr, Ht.
Qed.

(** X5.  When several mode options are given, the first of mapped, paired,
    reference, tag decides and the others are ignored: with [-mapped] set
    the run is the mapped split whatever else is set, with [-paired] set
    and [-mapped] not it is the paired split, and with [-reference] set
    and neither of the two it is the reference split. *)
Theorem first_mode_option_wins m_settings file :
  bam_files (InputFilename m_settings) = Some file ->
  (IsSplittingMapped m_settings = true ->
   run m_settings =
   with_files BoolFiles
     (SplitMapped can_open (stub_of m_settings) (HeaderText file)
        (ReferenceData file) (AlignmentData file))) /\
  (IsSplittingMapped m_settings = false ->
   IsSplittingPaired m_settings = true ->
   run m_settings =
   with_files BoolFiles
     (SplitPaired can_open (stub_of m_settings) (HeaderText file)
        (ReferenceData file) (AlignmentData file))) /\
  (IsSplittingMapped m_settings = false ->
   IsSplittingPaired m_settings = false ->
   IsSplittingReference m_settings = true ->
   run m_settings =
   with_files Int32Files
     (SplitReference can_open (stub_of m_settings) (HeaderText file)
        (ReferenceData file) (AlignmentData file))).
Proof.
  intros Hfile. unfold Run. rewrite Hfile. repeat apply conj.
  - by intros ->.
  - by intros -> ->.
  - by intros -> -> ->.
Qed.

(** X6.  An input without records: in every mode the run succeeds with
    exit status 0, writes nothing to the error channel and creates no
    sink at all. *)
Theorem empty_input_succeeds_without_sinks m_settings file :
  bam_files (InputFilename m_settings) = Some file ->
  AlignmentData file = [] ->
  IsSplittingMapped m_settings || IsSplittingPaired m_settings
    || IsSplittingReference m_settings || IsSplittingTag m_settings = true ->
  outcome (run m_settings) = Returned true /\
  cerr (run m_settings) = [] /\
  writers (outputFiles (run m_settings)) = [] /\
  exit_status m_settings = Exit 0.
Proof.
  intros Hfile Hdata Hmode. unfold SplitTool_Run, Run.
  rewrite Hfile, Hdata.
  destruct (IsSplittingMapped m_settings);
    [cbn; unfold CloseAll; by rewrite fmap_empty, map_to_list_empty|].
  destruct (IsSplittingPaired m_settings);
    [cbn; unfold CloseAll; by rewrite fmap_empty, map_to_list_empty|].
  destruct (IsSplittingReference m_settings);
    [cbn; unfold CloseAll; by rewrite fmap_empty, map_to_list_empty|].
  destruct (IsSplittingTag m_settings); done.
Qed.

(** X8.  A run that returns success has read the whole input, has written
    nothing to the error channel, and has closed every sink it opened. *)
Theorem successful_run_is_complete m_settings :
  outcome (run m_settings) = Returned true ->
  unread (run m_settings) = [] /\
  cerr (run m_settings) = [] /\
  Forall (fun w => IsClosed w = true) (writers (outputFiles (run m_settings))).
Proof.
  unfold Run.
  destruct (bam_files (InputFilename m_settings)) as [file|]; [|done].
  assert (forall `{Countable K} (get : BamAlignment -> option K) name
                 (inj : gmap K BamWriter ->
                        OutputFiles (BamAlignment := BamAlignment) (Float := Float)),
            (forall m, writers (inj m) = (map_to_list m).*2) ->
            let r := with_files inj
                       (SplitLoop can_open (HeaderText file) (ReferenceData file)
                          get name (AlignmentData file) ∅) in
            outcome r = Returned true ->
            unread r = [] /\ cerr r = [] /\
            Forall (fun w => IsClosed w = true) (writers (outputFiles r)))
    as Hloop.
  { intros K ? ? get name inj Hinj r. subst r. cbn [with_files outcome unread cerr outputFiles].
    destruct (SplitLoop_outcome can_open (HeaderText file) (ReferenceData file)
                get name (AlignmentData file) ∅)
      as [(_ & -> & -> & Hclosed)|(-> & _)]; [|done].
    intros _. repeat split. rewrite Hinj. by apply writers_Forall. }
  destruct (IsSplittingMapped m_settings); [by apply Hloop|].
  destruct (IsSplittingPaired m_settings); [by apply Hloop|].
  destruct (IsSplittingReference m_settings); [by apply Hloop|].
  destruct (IsSplittingTag m_settings); [|done].
  destruct (SplitTag_outcome can_open (stub_of m_settings) (HeaderText file)
              (ReferenceData file) (TagToSplit m_settings) (AlignmentData file))
    as [(_ & ? & ? & ?)|(-> & _)]; done.
Qed.

(** X9.  Every sink of a run, however the run ends, was opened with the
    header text and the reference table of the input, under a file name
    that begins with the stub and ends in ".bam"; whether it is open is
    what [Open] made of that name. *)
Theorem sinks_share_header_references_and_name_shape m_settings file :
  bam_files (InputFilename m_settings) = Some file ->
  Forall (fun w =>
            Header w = HeaderText file /\
            References w = ReferenceData file /\
            (exists mid, Filename w = stub_of m_settings +:+ mid +:+ ".bam") /\
            IsOpen w = can_open (Filename w))
    (writers (outputFiles (run m_settings))).
Proof.
  intros Hfile. apply (Run_writers_inv can_open bam_files currentTime _ _ file Hfile).
  - intros al mid _. cbn. repeat split. by exists mid.
  - by intros al w _.
  - by intros w.
Qed.

(** X10.  No sink is ever left without a record, and every record found
    in a sink is a record of the input, however the run ends. *)
Theorem no_sink_is_empty_or_holds_a_foreign_record m_settings file :
  bam_files (InputFilename m_settings) = Some file ->
  Forall (fun w =>
            Alignments w ≠ [] /\
            forall al, al ∈ Alignments w -> al ∈ AlignmentData file)
    (writers (outputFiles (run m_settings))).
Proof.
  intros Hfile. apply (Run_writers_inv can_open bam_files currentTime _ _ file Hfile).
  - intros al mid Hin. cbn. split; [done|].
    intros al' Hal'. apply list_elem_of_singleton in Hal'. by subst.
  - intros al w Hin [Hne Hsub]. cbn. split.
    + intros Happ. by apply app_eq_nil in Happ as [_ ?].
    + intros al' [Hal'|Hal']%elem_of_app; [by apply Hsub|].
      apply list_elem_of_singleton in Hal'. by subst.
  - by intros w.
Qed.

End RunProperties.

(** ** Reference mode and the reference table *)

Section ReferenceProperties.

Context {BamAlignment Float : Type}.
Context `{!BamAlignmentAPI BamAlignment Float}.

Variable can_open : string -> bool.
Variable m_outputFilenameStub : string.
Variable m_header : string.
Variable m_references : RefVector.

Implicit Types (al : BamAlignment) (rs : list BamAlignment).

Local Abbreviation Reference := (SplitReference can_open m_outputFilenameStub m_header m_references).
Local Abbreviation refkey := (fun al : BamAlignment => Some (RefID al)).
Local Abbreviation in_table := (fun al : BamAlignment => is_Some (vector_at m_references (RefID al))).

(** Either every id is in the table, or there is a first record whose id
    is not. *)
Lemma first_id_outside_table rs :
  Forall in_table rs \/
  exists pre al post,
    rs = (pre ++ al :: post)%list /\ Forall in_table pre /\
    vector_at m_references (RefID al) = None.
Proof.
  induction rs as [|al rs IH]; [by left|].
  destruct (vector_at m_references (RefID al)) as [ref|] eqn:Hal.
  - destruct IH as [Hall|(pre & al' & post & -> & Hpre & Hal')].
    + left. constructor; [by eexists|done].
    + right. exists (al :: pre), al', post.
      split; [done|]. split; [|done]. constructor; [by eexists|done].
  - right. by exists [], al, rs.
Qed.

(** X11.  A reference-mode run returns (and then returns success) exactly
    when the reference id of every record is an index of the reference
    table; one record outside the table, anywhere in the input, makes the
    run end with the exception instead. *)
Theorem reference_run_returns_iff_ids_in_table rs :
  let r := SplitReference can_open m_outputFilenameStub m_header m_references rs in
  (outcome r = Returned true <-> Forall in_table rs) /\
  (outcome r = Uncaught "std::out_of_range" <-> ~ Forall in_table rs).
Proof.
  cbv zeta.
  destruct (first_id_outside_table rs)
    as [Hall|(pre & al & post & -> & Hpre & Hal)].
  - destruct (SplitReference_routes can_open m_outputFilenameStub m_header
                m_references rs Hall) as [-> _].
    split; split; done.
  - rewrite SplitReference_throws by done. cbn [outcome].
    assert (~ Forall in_table (pre ++ al :: post)%list) as Hnot.
    { intros Hall. apply Forall_app in Hall as [_ Hall].
      apply Forall_cons in Hall as [[ref Href] _]. congruence. }
    split; split; done.
Qed.

(** X12.  When reference mode is stopped by a record whose id is outside
    the table, the sinks opened so far hold exactly the records read
    before it, each in the sink of its id and in input order, and not one
    of these sinks has been closed. *)
Theorem reference_exception_leaves_sinks_unclosed pre al post :
  Forall in_table pre ->
  vector_at m_references (RefID al) = None ->
  let r := Reference (pre ++ al :: post) in
  routes_exactly refkey pre (outputFiles r) /\
  forall k w, outputFiles r !! k = Some w -> IsClosed w = false.
Proof.
  intros Hpre Hal r. subst r. rewrite SplitReference_throws by done.
  cbn [outputFiles]. split.
  - intros k. rewrite pool_after_lookup, lookup_empty.
    by destruct (routed refkey pre k).
  - intros k w. rewrite pool_after_lookup, lookup_empty.
    destruct (routed refkey pre k); [done|]. by intros [= <-].
Qed.

End ReferenceProperties.

(** ** Output file names *)

Section FileNames.

Context {BamAlignment Float : Type}.
Context `{!BamAlignmentAPI BamAlignment Float}.

Variable can_open : string -> bool.
Variable m_outputFilenameStub : string.
Variable m_header : string.
Variable m_references : RefVector.

Implicit Types (al : BamAlignment) (rs : list BamAlignment).
Implicit Types (w : BamWriter (BamAlignment := BamAlignment)).

Local Abbreviation Mapped := (SplitMapped can_open m_outputFilenameStub m_header m_references).
Local Abbreviation Paired := (SplitPaired can_open m_outputFilenameStub m_header m_references).
Local Abbreviation Reference := (SplitReference can_open m_outputFilenameStub m_header m_references).
Local Abbreviation TagInt := (SplitTag_Int can_open m_outputFilenameStub m_header m_references).
Local Abbreviation TagUInt := (SplitTag_UInt can_open m_outputFilenameStub m_header m_references).
Local Abbreviation TagReal := (SplitTag_Real can_open m_outputFilenameStub m_header m_references).
Local Abbreviation TagString := (SplitTag_String can_open m_outputFilenameStub m_header m_references).

(** X13.  The name of each sink: [<stub>.MAPPED.bam] and
    [<stub>.UNMAPPED.bam] in mapped mode, [<stub>.PAIRED_END.bam] and
    [<stub>.SINGLE_END.bam] in paired mode, and
    [<stub>.TAG_<tag>_<value>.bam] in the tag functions, the value printed
    in decimal for the integer kinds and as it is for text.  In the float
    function a sink is named after the key its map entry holds, the value
    for which the sink was opened: a later value that [operator<] does
    not tell apart from it (the other zero, say) goes to that sink under
    that name, however it would print itself. *)
Theorem sink_file_names :
  (forall rs (b : bool) w, outputFiles
       (SplitMapped can_open m_outputFilenameStub m_header m_references rs) !! b = Some w ->
     Filename w = m_outputFilenameStub
                  +:+ (if b then ".MAPPED" else ".UNMAPPED") +:+ ".bam") /\
  (forall rs (b : bool) w, outputFiles
       (SplitPaired can_open m_outputFilenameStub m_header m_references rs) !! b = Some w ->
     Filename w = m_outputFilenameStub
                  +:+ (if b then ".PAIRED_END" else ".SINGLE_END") +:+ ".bam") /\
  (forall tag al rs (v : Z) w, outputFiles
       (SplitTag_Int can_open m_outputFilenameStub m_header m_references tag al rs) !! v = Some w ->
     Filename w = m_outputFilenameStub +:+ ".TAG_" +:+ tag +:+ "_"
                  +:+ pretty v +:+ ".bam") /\
  (forall tag al rs (v : N) w, outputFiles
       (SplitTag_UInt can_open m_outputFilenameStub m_header m_references tag al rs) !! v = Some w ->
     Filename w = m_outputFilenameStub +:+ ".TAG_" +:+ tag +:+ "_"
                  +:+ pretty v +:+ ".bam") /\
  (forall tag al rs (v : Float) w,
     (v, w) ∈ outputFiles
       (SplitTag_Real can_open m_outputFilenameStub m_header m_references tag al rs) ->
     Filename w = m_outputFilenameStub +:+ ".TAG_" +:+ tag +:+ "_"
                  +:+ print_float v +:+ ".bam") /\
  (forall tag al rs (v : string) w, outputFiles
       (SplitTag_String can_open m_outputFilenameStub m_header m_references tag al rs) !! v = Some w ->
     Filename w = m_outputFilenameStub +:+ ".TAG_" +:+ tag +:+ "_"
                  +:+ v +:+ ".bam").
Proof.
  split; [|split; [|split; [|split; [|split]]]].
  - intros rs b w Hw. by apply SplitLoop_total_writer in Hw as (_ & -> & _).
  - intros rs b w Hw. by apply SplitLoop_total_writer in Hw as (_ & -> & _).
  - intros tag al rs v w. unfold SplitTag_Int. cbv zeta.
    rewrite FirstAlignment_loop. intros Hw.
    by apply SplitLoop_total_writer in Hw as (_ & -> & _).
  - intros tag al rs v w. unfold SplitTag_UInt. cbv zeta.
    rewrite FirstAlignment_loop. intros Hw.
    by apply SplitLoop_total_writer in Hw as (_ & -> & _).
  - intros tag al rs. unfold SplitTag_Real. cbv zeta.
    rewrite FirstAlignmentOrdered_loop.
    apply (SplitLoopOrdered_writers_inv can_open m_header m_references
             float_lt _ _
             (fun v w => Filename w = TagFilename m_outputFilenameStub tag
                                        (print_float v))).
    + by intros al' k _ _.
    + by intros al' k w _.
    + by intros k w.
    + by intros k w ?%elem_of_nil.
  - intros tag al rs v w. unfold SplitTag_String. cbv zeta.
    rewrite FirstAlignment_loop. intros Hw.
    by apply SplitLoop_total_writer in Hw as (_ & -> & _).
Qed.

Lemma TagFilename_inj tag text1 text2 :
  TagFilename m_outputFilenameStub tag text1 =
  TagFilename m_outputFilenameStub tag text2 -> text1 = text2.
Proof.
  unfold TagFilename. intros Heq.
  do 4 apply (inj (String.append _)) in Heq.
  by apply string_app_inj_r in Heq.
Qed.

(** Two writers of a complete loop under the same name have the same key,
    when the naming is one-to-one. *)
Lemma SplitLoop_total_names_distinct {K : Type} `{Countable K}
  (key : BamAlignment -> option K) (name : K -> string) rs k1 k2 w1 w2 :
  (forall v1 v2, name v1 = name v2 -> v1 = v2) ->
  outputFiles (SplitLoop can_open m_header m_references key
                 (fun v => Some (name v)) rs ∅) !! k1 = Some w1 ->
  outputFiles (SplitLoop can_open m_header m_references key
                 (fun v => Some (name v)) rs ∅) !! k2 = Some w2 ->
  Filename w1 = Filename w2 -> k1 = k2.
Proof.
  intros Hinj Hw1 Hw2.
  apply SplitLoop_total_writer in Hw1 as (_ & -> & _).
  apply SplitLoop_total_writer in Hw2 as (_ & -> & _).
  apply Hinj.
Qed.

(** X14.  In mapped and paired mode and in the integer and text tag
    functions, two sinks of a run never share a file name: sinks with the
    same name are the sink of one key. *)
Theorem distinct_keys_get_distinct_file_names :
  (forall rs k1 k2 w1 w2,
     outputFiles
       (SplitMapped can_open m_outputFilenameStub m_header m_references rs) !! k1 = Some w1 ->
     outputFiles
       (SplitMapped can_open m_outputFilenameStub m_header m_references rs) !! k2 = Some w2 ->
     Filename w1 = Filename w2 -> k1 = k2) /\
  (forall rs k1 k2 w1 w2,
     outputFiles
       (SplitPaired can_open m_outputFilenameStub m_header m_references rs) !! k1 = Some w1 ->
     outputFiles
       (SplitPaired can_open m_outputFilenameStub m_header m_references rs) !! k2 = Some w2 ->
     Filename w1 = Filename w2 -> k1 = k2) /\
  (forall tag al rs k1 k2 w1 w2,
     outputFiles
       (SplitTag_Int can_open m_outputFilenameStub m_header m_references tag al rs) !! k1 = Some w1 ->
     outputFiles
       (SplitTag_Int can_open m_outputFilenameStub m_header m_references tag al rs) !! k2 = Some w2 ->
     Filename w1 = Filename w2 -> k1 = k2) /\
  (forall tag al rs k1 k2 w1 w2,
     outputFiles
       (SplitTag_UInt can_open m_outputFilenameStub m_header m_references tag al rs) !! k1 = Some w1 ->
     outputFiles
       (SplitTag_UInt can_open m_outputFilenameStub m_header m_references tag al rs) !! k2 = Some w2 ->
     Filename w1 = Filename w2 -> k1 = k2) /\
  (forall tag al rs k1 k2 w1 w2,
     outputFiles
       (SplitTag_String can_open m_outputFilenameStub m_header m_references tag al rs) !! k1 = Some w1 ->
     outputFiles
       (SplitTag_String can_open m_outputFilenameStub m_header m_references tag al rs) !! k2 = Some w2 ->
     Filename w1 = Filename w2 -> k1 = k2).
Proof.
  split; [|split; [|split; [|split]]].
  - intros rs k1 k2 w1 w2. apply SplitLoop_total_names_distinct.
    intros [] [] Heq; try done; apply (inj (String.append _)) in Heq;
      by vm_compute in Heq.
  - intros rs k1 k2 w1 w2. apply SplitLoop_total_names_distinct.
    intros [] [] Heq; try done; apply (inj (String.append _)) in Heq;
      by vm_compute in Heq.
  - intros tag al rs k1 k2 w1 w2. unfold SplitTag_Int. cbv zeta.
    rewrite FirstAlignment_loop. apply SplitLoop_total_names_distinct.
    intros v1 v2 Heq%TagFilename_inj. by apply (inj pretty).
  - intros tag al rs k1 k2 w1 w2. unfold SplitTag_UInt. cbv zeta.
    rewrite FirstAlignment_loop. apply SplitLoop_total_names_distinct.
    intros v1 v2 Heq%TagFilename_inj. by apply (inj pretty).
  - intros tag al rs k1 k2 w1 w2. unfold SplitTag_String. cbv zeta.
    rewrite FirstAlignment_loop. apply SplitLoop_total_names_distinct.
    intros v1 v2 Heq. by apply TagFilename_inj in Heq.
Qed.

End FileNames.

Section ReferenceNames.

Context {BamAlignment Float : Type}.
Context `{!BamAlignmentAPI BamAlignment Float}.

Variable can_open : string -> bool.
Variable m_outputFilenameStub : string.
Variable m_header : string.
Variable m_references : RefVector.

Implicit Types (al : BamAlignment) (rs : list BamAlignment).
Implicit Types (w : BamWriter (BamAlignment := BamAlignment)).

Local Abbreviation Reference := (SplitReference can_open m_outputFilenameStub m_header m_references).

Lemma nth_error_lookup {T : Type} (l : list T) i : nth_error l i = l !! i.
Proof. revert i. induction l as [|x l IH]; intros [|i]; simpl; auto. Qed.

Lemma to_size_t_inj a b :
  is_int32 a -> is_int32 b -> to_size_t a = to_size_t b -> a = b.
Proof.
  intros Ha Hb.
  destruct (Z.lt_ge_cases a 0) as [Ha0|Ha0], (Z.lt_ge_cases b 0) as [Hb0|Hb0].
  - rewrite !to_size_t_neg by done. lia.
  - rewrite to_size_t_neg, to_size_t_nonneg by done.
    unfold is_int32 in *. change (2 ^ 31)%Z with 2147483648%Z in *.
    change (2 ^ 64)%Z with 18446744073709551616%Z. lia.
  - rewrite to_size_t_nonneg, to_size_t_neg by done.
    unfold is_int32 in *. change (2 ^ 31)%Z with 2147483648%Z in *.
    change (2 ^ 64)%Z with 18446744073709551616%Z. lia.
  - by rewrite !to_size_t_nonneg by done.
Qed.

Lemma vector_at_lookup {T : Type} (v : list T) n x :
  vector_at v n = Some x -> v !! Z.to_nat (to_size_t n) = Some x.
Proof.
  unfold vector_at. cbv zeta.
  destruct (to_size_t n <? Z.of_nat (length v))%Z; [|done].
  by rewrite nth_error_lookup.
Qed.

(** The name of a reference-mode sink comes from the table entry of its
    id, however the run ends. *)
Lemma SplitReference_writer_name rs k w :
  outputFiles (Reference rs) !! k = Some w ->
  exists ref,
    vector_at m_references k = Some ref /\
    Filename w = m_outputFilenameStub +:+ ".REF_" +:+ RefName ref +:+ ".bam".
Proof.
  unfold SplitReference.
  apply (SplitLoop_writers_inv can_open m_header m_references _ _
           (fun k w => exists ref,
              vector_at m_references k = Some ref /\
              Filename w = m_outputFilenameStub +:+ ".REF_"
                           +:+ RefName ref +:+ ".bam")).
  - intros al k' name _ _. unfold ReferenceFilename.
    destruct (vector_at m_references k') as [ref|]; [|done].
    intros [= <-]. by exists ref.
  - by intros al k' w' _.
  - by intros k' w'.
  - intros k' w'. by rewrite lookup_empty.
Qed.

(** X15.  In reference mode, when the names in the reference table are
    pairwise different, two sinks of a run never share a file name.  (The
    ids are [int32_t] values.) *)
Theorem distinct_references_get_distinct_file_names rs k1 k2 w1 w2 :
  NoDup (RefName <$> m_references) ->
  Forall (fun al => is_int32 (RefID al)) rs ->
  outputFiles (Reference rs) !! k1 = Some w1 ->
  outputFiles (Reference rs) !! k2 = Some w2 ->
  Filename w1 = Filename w2 -> k1 = k2.
Proof.
  intros Hnodup Hint Hw1 Hw2 Hname.
  assert (forall k w, outputFiles (Reference rs) !! k = Some w -> is_int32 k)
    as Hkey.
  { intros k w Hw.
    assert (is_Some (outputFiles (Reference rs) !! k)) as Hk by by eexists.
    apply SplitLoop_keys in Hk as [Hk|(al & Hal & [= <-])].
    - rewrite lookup_empty in Hk. by destruct Hk.
    - rewrite Forall_forall in Hint. by apply Hint. }
  pose proof (Hkey _ _ Hw1) as Hk1. pose proof (Hkey _ _ Hw2) as Hk2.
  apply SplitReference_writer_name in Hw1 as (ref1 & Hat1 & Hn1).
  apply SplitReference_writer_name in Hw2 as (ref2 & Hat2 & Hn2).
  rewrite Hn1, Hn2 in Hname.
  do 2 apply (inj (String.append _)) in Hname.
  apply string_app_inj_r in Hname.
  apply vector_at_lookup in Hat1, Hat2.
  assert (Z.to_nat (to_size_t k1) = Z.to_nat (to_size_t k2)) as Hidx.
  { apply (NoDup_lookup (RefName <$> m_references) _ _ (RefName ref1) Hnodup).
    - by rewrite list_lookup_fmap, Hat1.
    - by rewrite list_lookup_fmap, Hat2, Hname. }
  apply to_size_t_inj; [done..|].
  apply Z2Nat.inj in Hidx; [done|unfold to_size_t; apply Z.mod_pos_bound; done..].
Qed.

End ReferenceNames.

(** ** How splits compose *)

Section Composition.

Context {BamAlignment Float : Type}.
Context `{!BamAlignmentAPI BamAlignment Float}.

(** Two runs, each with its own environment and stub. *)
Variable can_open can_open' : string -> bool.
Variable stub stub' : string.
Variable m_header : string.
Variable m_references : RefVector.

Implicit Types (al : BamAlignment) (rs : list BamAlignment).

Local Abbreviation Mapped := (SplitMapped can_open stub m_header m_references).
Local Abbreviation Paired := (SplitPaired can_open stub m_header m_references).
Local Abbreviation Mapped' := (SplitMapped can_open' stub' m_header m_references).
Local Abbreviation Paired' := (SplitPaired can_open' stub' m_header m_references).

Lemma sink_SplitMapped co st rs b :
  sink (outputFiles (SplitMapped co st m_header m_references rs)) b =
  filter (fun al => IsMapped al = b) rs.
Proof.
  rewrite <- routed_bool.
  apply routes_exactly_sink, SplitLoop_total_routes.
Qed.

Lemma sink_SplitPaired co st rs b :
  sink (outputFiles (SplitPaired co st m_header m_references rs)) b =
  filter (fun al => IsPaired al = b) rs.
Proof.
  rewrite <- routed_bool.
  apply routes_exactly_sink, SplitLoop_total_routes.
Qed.

Lemma filter_none {T : Type} (P : T -> Prop) `{forall x, Decision (P x)}
  (l : list T) : (forall x, x ∈ l -> ~ P x) -> filter P l = [].
Proof.
  induction l as [|x l IH]; intros Hl; [done|].
  rewrite filter_cons_False by (apply Hl; by left).
  apply IH. intros y Hy. apply Hl. by right.
Qed.

(** X16.  Splitting a concatenated input gives, sink by sink, the
    concatenation of what splitting the two parts gives (mapped and paired
    mode). *)
Theorem split_of_concatenation rs1 rs2 (b : bool) :
  sink (outputFiles (Mapped (rs1 ++ rs2))) b =
    (sink (outputFiles (Mapped rs1)) b ++ sink (outputFiles (Mapped rs2)) b)%list /\
  sink (outputFiles (Paired (rs1 ++ rs2))) b =
    (sink (outputFiles (Paired rs1)) b ++ sink (outputFiles (Paired rs2)) b)%list.
Proof.
  rewrite !sink_SplitMapped, !sink_SplitPaired. split; apply filter_app.
Qed.

(** X17.  Splitting a sink of a mapped-mode (paired-mode) run once more in
    the same mode changes nothing: all its records go to the sink of the
    same key, in the same order, and the other sink gets none. *)
Theorem split_again_is_stable rs (b : bool) :
  (let part := sink (outputFiles (Mapped rs)) b in
   sink (outputFiles (Mapped' part)) b = part /\
   sink (outputFiles (Mapped' part)) (negb b) = []) /\
  (let part := sink (outputFiles (Paired rs)) b in
   sink (outputFiles (Paired' part)) b = part /\
   sink (outputFiles (Paired' part)) (negb b) = []).
Proof.
  cbv zeta. rewrite !sink_SplitMapped, !sink_SplitPaired.
  repeat apply conj.
  - rewrite list_filter_filter. apply list_filter_iff. tauto.
  - apply filter_none. intros al [Hal _]%list_elem_of_filter.
    rewrite Hal. by destruct b.
  - rewrite list_filter_filter. apply list_filter_iff. tauto.
  - apply filter_none. intros al [Hal _]%list_elem_of_filter.
    rewrite Hal. by destruct b.
Qed.

(** X18.  Mapped and paired splits commute: the paired split of a sink of
    the mapped split holds the same records, in the same order, as the
    mapped split of the corresponding sink of the paired split. *)
Theorem mapped_and_paired_splits_commute rs (b1 b2 : bool) :
  sink (outputFiles (Paired' (sink (outputFiles (Mapped rs)) b1))) b2 =
  sink (outputFiles (Mapped' (sink (outputFiles (Paired rs)) b2))) b1.
Proof.
  rewrite !sink_SplitMapped, !sink_SplitPaired, !list_filter_filter.
  apply list_filter_iff. tauto.
Qed.

End Composition.

(** ** One sink per distinct value *)

Section SinkCount.

Context {BamAlignment Float : Type}.
Context `{!BamAlignmentAPI BamAlignment Float}.

Variable can_open : string -> bool.
Variable m_outputFilenameStub : string.
Variable m_header : string.
Variable m_references : RefVector.

Implicit Types (al : BamAlignment) (rs : list BamAlignment).

Lemma routes_exactly_keys {K : Type} `{Countable K}
  (key : BamAlignment -> option K) rs
  (m : gmap K (BamWriter (BamAlignment := BamAlignment))) :
  routes_exactly key rs m -> dom m = list_to_set (omap key rs).
Proof.
  intros Hr. apply set_eq. intros k.
  rewrite elem_of_dom, (routes_exactly_dom key rs m k Hr).
  rewrite elem_of_list_to_set, list_elem_of_omap. done.
Qed.

(** X19.  Each of the integer and text tag functions ends with exactly
    one sink per distinct value it could extract from the records it was
    given (its first alignment included): the keys of its map are the set
    of those values, and the number of sinks is the number of distinct
    values.  (The float function tells values apart by [operator<], not by
    equality; its sinks are the matter of C1.) *)
Theorem one_sink_per_distinct_tag_value tag al rs :
  let int := outputFiles (SplitTag_Int can_open m_outputFilenameStub m_header m_references tag al rs) in
  let uint := outputFiles (SplitTag_UInt can_open m_outputFilenameStub m_header m_references tag al rs) in
  let text := outputFiles (SplitTag_String can_open m_outputFilenameStub m_header m_references tag al rs) in
  (dom int = list_to_set (omap (fun a => GetTag_int32 a tag) (al :: rs)) /\
   size int = size (list_to_set (omap (fun a => GetTag_int32 a tag) (al :: rs)) : gset Z)) /\
  (dom uint = list_to_set (omap (fun a => GetTag_uint32 a tag) (al :: rs)) /\
   size uint = size (list_to_set (omap (fun a => GetTag_uint32 a tag) (al :: rs)) : gset N)) /\
  (dom text = list_to_set (omap (fun a => GetTag_string a tag) (al :: rs)) /\
   size text = size (list_to_set (omap (fun a => GetTag_string a tag) (al :: rs)) : gset string)).
Proof.
  assert (forall `{Countable K} (get : BamAlignment -> option K) name,
            let m := outputFiles
                       (SplitLoop can_open m_header m_references get
                          (fun v => Some (name v)) (al :: rs) ∅) in
            dom m = list_to_set (omap get (al :: rs)) /\
            size m = size (list_to_set (omap get (al :: rs)) : gset K)) as Hloop.
  { intros K ? ? get name m.
    assert (dom m = list_to_set (omap get (al :: rs))) as Hdom
      by apply routes_exactly_keys, SplitLoop_total_routes.
    split; [done|]. by rewrite <- Hdom, size_dom. }
  cbv zeta.
  unfold SplitTag_Int, SplitTag_UInt, SplitTag_String.
  cbv zeta. rewrite !FirstAlignment_loop.
  repeat apply conj; apply Hloop.
Qed.

End SinkCount.

(** ** When a run fails *)

Section FailureCauses.

Context {BamAlignment Float : Type}.
Context `{!BamAlignmentAPI BamAlignment Float}.

Variable can_open : string -> bool.
Variable bam_files : string -> option (BamFile BamAlignment).
Variable currentTime : string.

Implicit Types (al : BamAlignment) (rs : list BamAlignment).

Local Abbreviation run := (Run can_open bam_files currentTime).
Local Abbreviation stub_of s := (DetermineOutputFilenameStub s currentTime).

(** The first record carrying the tag has a storage class outside the ten
    recognized codes. *)
Local Abbreviation first_tag_unknown tag rs :=
  (exists pre al post tagType,
     rs = (pre ++ al :: post)%list /\ Forall (lacks_tag tag) pre /\
     GetTagType al tag = Some tagType /\ family_of tagType = None).

Lemma SplitTag_fails_iff stub header refs tag rs :
  outcome (SplitTag can_open stub header refs tag rs) = Returned false <->
  first_tag_unknown tag rs.
Proof.
  split.
  - induction rs as [|al rs IH]; [done|].
    destruct (GetTagType al tag) as [tagType|] eqn:Htype.
    + destruct (family_of tagType) as [family|] eqn:Hfam.
      * destruct (SplitTag_dispatch_run can_open stub header refs tag al rs
                    tagType family Htype Hfam) as (-> & _). done.
      * intros _. by exists [], al, rs, tagType.
    + cbn [SplitTag]. rewrite Htype. intros Hout.
      destruct (IH Hout) as (pre & al' & post & t & -> & Hpre & Ht & Hf).
      exists (al :: pre), al', post, t. split; [done|].
      split; [by constructor|done].
  - intros (pre & al & post & t & -> & Hpre & Ht & Hf).
    rewrite SplitTag_skip by done. cbn [SplitTag]. by rewrite Ht, Hf.
Qed.

(** X7.  When a run fails.  It returns failure exactly when the input
    cannot be opened, or no mode option is set, or tag mode is selected
    and the first record carrying the tag has a storage class outside the
    ten recognized codes.  It is left by the [std::out_of_range]
    exception exactly when reference mode is selected and some record has
    a reference id that is no index of the reference table.  In every
    other case it returns success. *)
Theorem run_fails_exactly_when m_settings :
  (outcome (run m_settings) = Returned false <->
   bam_files (InputFilename m_settings) = None \/
   exists file,
     bam_files (InputFilename m_settings) = Some file /\
     ((IsSplittingMapped m_settings = false /\
       IsSplittingPaired m_settings = false /\
       IsSplittingReference m_settings = false /\
       IsSplittingTag m_settings = false) \/
      (selects_tag_mode m_settings /\
       first_tag_unknown (TagToSplit m_settings) (AlignmentData file)))) /\
  (outcome (run m_settings) = Uncaught "std::out_of_range" <->
   exists file,
     bam_files (InputFilename m_settings) = Some file /\
     IsSplittingMapped m_settings = false /\
     IsSplittingPaired m_settings = false /\
     IsSplittingReference m_settings = true /\
     ~ Forall (fun al => is_Some (vector_at (ReferenceData file) (RefID al)))
         (AlignmentData file)) /\
  (outcome (run m_settings) = Returned true \/
   outcome (run m_settings) = Returned false \/
   outcome (run m_settings) = Uncaught "std::out_of_range").
Proof.
  unfold Run, selects_tag_mode.
  destruct (bam_files (InputFilename m_settings)) as [file|] eqn:Hfile.
  2:{ cbn [outcome]. split; [|split].
      - split; [by left|done].
      - split; [done|]. by intros (? & ? & _).
      - right. by left. }
  destruct (IsSplittingMapped m_settings) eqn:Hm.
  { cbn [with_files outcome]. unfold SplitMapped. rewrite SplitLoop_total.
    cbn [outcome]. split; [|split].
    - split; [done|]. intros [?|(? & _ & [(? & _)|((? & _) & _)])]; done.
    - split; [done|]. by intros (? & _ & ? & _).
    - by left. }
  destruct (IsSplittingPaired m_settings) eqn:Hp.
  { cbn [with_files outcome]. unfold SplitPaired. rewrite SplitLoop_total.
    cbn [outcome]. split; [|split].
    - split; [done|]. intros [?|(? & _ & [(_ & ? & _)|((_ & ? & _) & _)])]; done.
    - split; [done|]. by intros (? & _ & _ & ? & _).
    - by left. }
  destruct (IsSplittingReference m_settings) eqn:Hr.
  { cbn [with_files outcome].
    destruct (first_id_outside_table (ReferenceData file) (AlignmentData file))
      as [Hall|(pre & al & post & Hdata & Hpre & Hal)].
    - destruct (SplitReference_routes can_open (stub_of m_settings)
                  (HeaderText file) (ReferenceData file) (AlignmentData file) Hall)
        as [-> _].
      split; [|split].
      + split; [done|].
        intros [?|(? & _ & [(_ & _ & ? & _)|((_ & _ & ? & _) & _)])]; done.
      + split; [done|]. intros (file' & [= <-] & _ & _ & _ & Hnot). done.
      + by left.
    - rewrite Hdata. rewrite SplitReference_throws by done. cbn [outcome].
      split; [|split].
      + split; [done|].
        intros [?|(? & _ & [(_ & _ & ? & _)|((_ & _ & ? & _) & _)])]; done.
      + split; [|done]. intros _. exists file. repeat split.
        intros Hall. rewrite Hdata in Hall.
        apply Forall_app in Hall as [_ Hall].
        apply Forall_cons in Hall as [[ref Href] _]. congruence.
      + right. by right. }
  destruct (IsSplittingTag m_settings) eqn:Ht.
  { pose proof (SplitTag_fails_iff (stub_of m_settings) (HeaderText file)
                  (ReferenceData file) (TagToSplit m_settings)
                  (AlignmentData file)) as Hiff.
    destruct (SplitTag_outcome can_open (stub_of m_settings) (HeaderText file)
                (ReferenceData file) (TagToSplit m_settings) (AlignmentData file))
      as [(Hout & _)|(Hout & _)].
    - rewrite Hout in *. split; [|split].
      + split; [done|].
        intros [?|(file' & [= <-] & [(_ & _ & _ & ?)|(_ & Hunk)])]; [done..|].
        by apply Hiff in Hunk.
      + split; [done|]. by intros (? & _ & _ & _ & ? & _).
      + by left.
    - rewrite Hout in *. split; [|split].
      + split; [|done]. intros _. right. exists file. split; [done|].
        right. split; [done|]. by apply Hiff.
      + split; [done|]. by intros (? & _ & _ & _ & ? & _).
      + right. by left. }
  cbn [outcome]. split; [|split].
  - split; [|done]. intros _. right. exists file. split; [done|]. by left.
  - split; [done|]. by intros (? & _ & _ & _ & ? & _).
  - right. by left.
Qed.

End FailureCauses.

(** ** The further properties at concrete inputs *)

(** X3 at a concrete input: no file can be read, tag mode asked for. *)
Lemma unreadable_input_sample :
  Run always no_files ctime_text tag_settings =
    mkResult (Returned false) [] NoFiles
      ["ERROR: SplitTool could not open BAM file: in.bam" +:+ endl] /\
  SplitTool_Run always no_files ctime_text tag_settings = Exit 1.
Proof.
  apply (unreadable_input_fails_whatever_the_mode always no_files ctime_text
           tag_settings).
  reflexivity.
Defined.

(** X4 at a concrete input: two records, no mode option. *)
Lemma no_mode_option_sample :
  let files := only_in_bam [mapped_a; unmapped_b] in
  unread (Run always files ctime_text no_mode_settings) = [mapped_a; unmapped_b] /\
  SplitTool_Run always files ctime_text no_mode_settings = Exit 1.
Proof.
  destruct (no_mode_option_reads_no_record always
              (only_in_bam [mapped_a; unmapped_b]) ctime_text no_mode_settings
              (in_bam [mapped_a; unmapped_b]))
    as [Hrun Hexit]; try reflexivity.
  split; [|exact Hexit].
  exact (f_equal unread Hrun).
Defined.

(** X5 at a concrete input: [-mapped] and [-tag RG] together. *)
Lemma first_mode_option_sample :
  Run always (only_in_bam [rg_text; unmapped_b]) ctime_text mapped_and_tag_settings =
  with_files BoolFiles
    (SplitMapped always
       (DetermineOutputFilenameStub mapped_and_tag_settings ctime_text)
       "@HD" [chr1] [rg_text; unmapped_b]).
Proof.
  apply (first_mode_option_wins always (only_in_bam [rg_text; unmapped_b])
           ctime_text mapped_and_tag_settings (in_bam [rg_text; unmapped_b]));
    reflexivity.
Defined.

(** X6 at a concrete input: an empty file, reference mode. *)
Lemma empty_input_sample :
  outcome (Run always (only_in_bam []) ctime_text reference_settings) = Returned true /\
  cerr (Run always (only_in_bam []) ctime_text reference_settings) = [] /\
  writers (outputFiles (Run always (only_in_bam []) ctime_text reference_settings)) = [] /\
  SplitTool_Run always (only_in_bam []) ctime_text reference_settings = Exit 0.
Proof.
  apply (empty_input_succeeds_without_sinks always (only_in_bam []) ctime_text
           reference_settings (in_bam [])); reflexivity.
Defined.

(** X7 at a concrete input: reference mode meets the unmapped record. *)
Lemma run_fails_sample :
  outcome (Run always (only_in_bam [mapped_a; unmapped_b]) ctime_text
             reference_settings) = Uncaught "std::out_of_range".
Proof.
  apply (run_fails_exactly_when always (only_in_bam [mapped_a; unmapped_b])
           ctime_text reference_settings).
  exists (in_bam [mapped_a; unmapped_b]).
  repeat split.
  intros Hall. apply Forall_cons in Hall as [_ Hall].
  apply Forall_cons in Hall as [[ref Href] _]. discriminate Href.
Defined.

(** X8 at a concrete input: a mapped-mode run. *)
Lemma successful_run_sample :
  let r := Run always (only_in_bam [mapped_a; unmapped_b]) ctime_text mapped_settings in
  unread r = [] /\ cerr r = [] /\
  Forall (fun w => IsClosed w = true) (writers (outputFiles r)).
Proof.
  apply (successful_run_is_complete always (only_in_bam [mapped_a; unmapped_b])
           ctime_text mapped_settings).
  reflexivity.
Defined.

(** X9 at a concrete input: a reference-mode run cut short. *)
Lemma sinks_share_sample :
  Forall (fun w =>
            Header w = "@HD" /\ References w = [chr1] /\
            (exists mid,
               Filename w =
               DetermineOutputFilenameStub reference_settings ctime_text
               +:+ mid +:+ ".bam") /\
            IsOpen w = always (Filename w))
    (writers (outputFiles
                (Run always (only_in_bam [mapped_a; unmapped_b; mapped_c])
                   ctime_text reference_settings))).
Proof.
  apply (sinks_share_header_references_and_name_shape always
           (only_in_bam [mapped_a; unmapped_b; mapped_c]) ctime_text
           reference_settings (in_bam [mapped_a; unmapped_b; mapped_c])).
  reflexivity.
Defined.

(** X10 at a concrete input: a tag-mode run. *)
Lemma no_empty_sink_sample :
  Forall (fun w =>
            Alignments w ≠ [] /\
            forall al, al ∈ Alignments w -> al ∈ [mapped_a; rg_text; rg_int])
    (writers (outputFiles
                (Run always (only_in_bam [mapped_a; rg_text; rg_int])
                   ctime_text tag_settings))).
Proof.
  apply (no_sink_is_empty_or_holds_a_foreign_record always
           (only_in_bam [mapped_a; rg_text; rg_int]) ctime_text tag_settings
           (in_bam [mapped_a; rg_text; rg_int])).
  reflexivity.
Defined.

(** X11 at a concrete input: both ids in the table. *)
Lemma reference_run_returns_sample :
  outcome (SplitReference always "in" "@HD" [chr1] [mapped_a; mapped_c]) =
  Returned true.
Proof.
  apply (reference_run_returns_iff_ids_in_table always "in" "@HD" [chr1]).
  repeat constructor; by eexists.
Defined.

(** X12 at a concrete input: stopped at the unmapped record. *)
Lemma reference_exception_sample :
  let r := SplitReference always "in" "@HD" [chr1]
             ([mapped_a] ++ unmapped_b :: [mapped_c]) in
  routes_exactly (fun al => Some (RefID al)) [mapped_a] (outputFiles r) /\
  forall k w, outputFiles r !! k = Some w -> IsClosed w = false.
Proof.
  apply (reference_exception_leaves_sinks_unclosed always "in" "@HD" [chr1]
           [mapped_a] unmapped_b [mapped_c]).
  - repeat constructor; by eexists.
  - reflexivity.
Defined.

(** X13 at a concrete input: the sink of the tag value 5. *)
Lemma sink_file_names_sample :
  Filename <$>
    outputFiles (SplitTag_Int always "in" "@HD" [chr1] "RG" rg_int [rg_int]) !! 5%Z
  = Some "in.TAG_RG_5.bam".
Proof.
  destruct (sink_file_names always "in" "@HD" [chr1]) as (_ & _ & Hint & _).
  destruct (outputFiles (SplitTag_Int always "in" "@HD" [chr1] "RG" rg_int [rg_int])
              !! 5%Z) as [w|] eqn:Hw.
  - simpl. f_equal. exact (Hint "RG" rg_int [rg_int] 5%Z w Hw).
  - vm_compute in Hw. discriminate Hw.
Defined.

(** X14 at a concrete input: the two sinks of a mapped-mode run. *)
Lemma distinct_file_names_sample :
  let files := outputFiles (SplitMapped always "in" "@HD" [chr1]
                              [mapped_a; unmapped_b]) in
  match files !! true, files !! false with
  | Some w1, Some w2 => Filename w1 <> Filename w2
  | _, _ => False
  end.
Proof.
  destruct (distinct_keys_get_distinct_file_names always "in" "@HD" [chr1])
    as (Hmapped & _).
  cbv zeta.
  destruct (outputFiles (SplitMapped always "in" "@HD" [chr1]
                           [mapped_a; unmapped_b]) !! true) as [w1|] eqn:Hw1;
    [|vm_compute in Hw1; discriminate Hw1].
  destruct (outputFiles (SplitMapped always "in" "@HD" [chr1]
                           [mapped_a; unmapped_b]) !! false) as [w2|] eqn:Hw2;
    [|vm_compute in Hw2; discriminate Hw2].
  intros Heq.
  discriminate (Hmapped [mapped_a; unmapped_b] true false w1 w2 Hw1 Hw2 Heq).
Defined.

(** X15 at a concrete input: a table of two references, one record on
    each. *)
Lemma distinct_references_sample :
  let files := outputFiles (SplitReference always "in" "@HD" [chr1; chr2]
                              [mapped_a; plain "d" true false 1]) in
  match files !! 0%Z, files !! 1%Z with
  | Some w1, Some w2 => Filename w1 <> Filename w2
  | _, _ => False
  end.
Proof.
  cbv zeta.
  destruct (outputFiles (SplitReference always "in" "@HD" [chr1; chr2]
                           [mapped_a; plain "d" true false 1]) !! 0%Z)
    as [w1|] eqn:Hw1; [|vm_compute in Hw1; discriminate Hw1].
  destruct (outputFiles (SplitReference always "in" "@HD" [chr1; chr2]
                           [mapped_a; plain "d" true false 1]) !! 1%Z)
    as [w2|] eqn:Hw2; [|vm_compute in Hw2; discriminate Hw2].
  intros Heq.
  assert (0 = 1)%Z as Hkeys; [|discriminate Hkeys].
  apply (distinct_references_get_distinct_file_names always "in" "@HD"
           [chr1; chr2] [mapped_a; plain "d" true false 1] 0%Z 1%Z w1 w2);
    [| |exact Hw1|exact Hw2|exact Heq].
  - apply NoDup_cons. split; [|apply NoDup_singleton].
    intros Hin. apply list_elem_of_singleton in Hin. discriminate Hin.
  - repeat constructor; unfold is_int32; simpl; lia.
Defined.

(** ** The float map at NaN and at the two zeros *)

(** A NaN met after other values lands in the sink of the smallest key;
    a NaN met first takes every later record into its sink; the two zeros
    share the sink named after the one met first. *)
Example float_sinks_at_nan_and_zero :
  let split := fun first rest =>
    FloatSample.summary
      (outputFiles
         (SplitTag_Real (fun _ => true) "in" "@HD" [] "XF" first rest)) in
  split (FloatSample.read "a" (FloatSample.Finite 1))
        [FloatSample.read "b" FloatSample.NaN;
         FloatSample.read "c" (FloatSample.Finite 2)]
  = [("1", "in.TAG_XF_1.bam", ["a"; "b"]); ("2", "in.TAG_XF_2.bam", ["c"])] /\
  split (FloatSample.read "a" (FloatSample.Finite 2))
        [FloatSample.read "b" (FloatSample.Finite 1);
         FloatSample.read "c" FloatSample.NaN]
  = [("1", "in.TAG_XF_1.bam", ["b"; "c"]); ("2", "in.TAG_XF_2.bam", ["a"])] /\
  split (FloatSample.read "a" FloatSample.NaN)
        [FloatSample.read "b" (FloatSample.Finite 1);
         FloatSample.read "c" (FloatSample.Finite 2)]
  = [("nan", "in.TAG_XF_nan.bam", ["a"; "b"; "c"])] /\
  split (FloatSample.read "a" FloatSample.NegZero)
        [FloatSample.read "b" (FloatSample.Finite 0)]
  = [("-0", "in.TAG_XF_-0.bam", ["a"; "b"])].
Proof. vm_compute. repeat split. Qed.
